(** * tag-bumper: tag classification and retargeting workflow

    A shallow embedding of [src/index.js].  The pure tag classifier
    ([filterVersionTags], [filterNonRootTags], [getRootTag]) is embedded
    over a small regular-expression matcher; the asynchronous workflow
    ([updateTag], [updateRootTag], [main]) is embedded in a state monad
    over an explicit model of the git gateway, the interactive prompts,
    the console and [process.exit]. *)

From Stdlib Require Import String Ascii List Bool Arith Lia.
Import ListNotations.

Local Open Scope string_scope.
Local Open Scope list_scope.

(* ===================================================================== *)
(** * Regular expressions *)
(* ===================================================================== *)

(** The two patterns of the source, [/^v\d+/] and [/^v\d+\.\d+/], are built
    from literal characters, the class [\d] and the postfix [+].  Both are
    anchored at the start ([^]) and open at the end. *)

Module RegExp.

Inductive regex : Type :=
| Void                         (* matches nothing *)
| Eps                          (* matches the empty string *)
| Chr (c : ascii)              (* a literal character *)
| Digit                        (* the class \d *)
| Seq (r1 r2 : regex)
| Alt (r1 r2 : regex)
| Star (r : regex).

(** [r+] *)
Definition Plus (r : regex) : regex := Seq r (Star r).

(** [\d] without the unicode flag is exactly [0-9]. *)
Definition is_digit (c : ascii) : bool :=
  let n := nat_of_ascii c in ((48 <=? n)%nat && (n <=? 57)%nat)%bool.

Fixpoint nullable (r : regex) : bool :=
  match r with
  | Void => false
  | Eps => true
  | Chr _ => false
  | Digit => false
  | Seq r1 r2 => nullable r1 && nullable r2
  | Alt r1 r2 => nullable r1 || nullable r2
  | Star _ => true
  end.

(** Brzozowski derivative of [r] by the character [a]. *)
Fixpoint deriv (a : ascii) (r : regex) : regex :=
  match r with
  | Void => Void
  | Eps => Void
  | Chr c => if Ascii.eqb a c then Eps else Void
  | Digit => if is_digit a then Eps else Void
  | Seq r1 r2 =>
      if nullable r1
      then Alt (Seq (deriv a r1) r2) (deriv a r2)
      else Seq (deriv a r1) r2
  | Alt r1 r2 => Alt (deriv a r1) (deriv a r2)
  | Star r1 => Seq (deriv a r1) (Star r1)
  end.

(** Does some prefix of [s] match [r]?  This is what [/^r/.test(s)]
    computes for a pattern anchored at the start only. *)
Fixpoint prefix_match (r : regex) (s : list ascii) : bool :=
  nullable r ||
  match s with
  | [] => false
  | a :: s' => prefix_match (deriv a r) s'
  end.

(** [/^r/.test(s)] *)
Definition test (r : regex) (s : string) : bool :=
  prefix_match r (list_ascii_of_string s).

(** Denotation: the words of [r]. *)
Inductive matches : regex -> list ascii -> Prop :=
| MEps : matches Eps []
| MChr c : matches (Chr c) [c]
| MDigit c : is_digit c = true -> matches Digit [c]
| MSeq r1 r2 s1 s2 :
    matches r1 s1 -> matches r2 s2 -> matches (Seq r1 r2) (s1 ++ s2)
| MAltL r1 r2 s : matches r1 s -> matches (Alt r1 r2) s
| MAltR r1 r2 s : matches r2 s -> matches (Alt r1 r2) s
| MStar0 r : matches (Star r) []
| MStarS r s1 s2 :
    matches r s1 -> matches (Star r) s2 -> matches (Star r) (s1 ++ s2).

End RegExp.

(* ===================================================================== *)
(** * Tag classifier *)
(* ===================================================================== *)

Import RegExp.

(** [/^v\d+/] *)
Definition rootTagPattern : regex := Seq (Chr "v"%char) (Plus Digit).

(** [/^v\d+\.\d+/] *)
Definition versionTagPattern : regex :=
  Seq (Chr "v"%char) (Seq (Plus Digit) (Seq (Chr "."%char) (Plus Digit))).

(** JavaScript truthiness of a string: every string but the empty one. *)
Definition truthy (s : string) : bool :=
  match s with
  | EmptyString => false
  | String _ _ => true
  end.

(** [tags.filter(tag => /^v\d+\.\d+/.test(tag))] *)
Definition filterVersionTags (tags : list string) : list string :=
  filter (fun tag => test versionTagPattern tag) tags.

(** [tags.find(tag => /^v\d+/.test(tag))]; [None] stands for [undefined]. *)
Definition getRootTag (tags : list string) : option string :=
  find (fun tag => test rootTagPattern tag) tags.

(** [rootTag ? tags.filter(tag => tag !== rootTag) : tags] *)
Definition filterNonRootTags (tags : list string) : list string :=
  match getRootTag tags with
  | Some rootTag =>
      if truthy rootTag
      then filter (fun tag => negb (String.eqb tag rootTag)) tags
      else tags
  | None => tags
  end.

(** The spec's notion of a bare major-version tag: the name matches
    [^v\d+] and no [.minor] component follows the major number. *)
Definition isBareMajorTag (tag : string) : bool :=
  test rootTagPattern tag && negb (test versionTagPattern tag).

(** What the spec asks of [findRootTag]: the first bare major-version tag. *)
Definition findRootTag_spec (tags : list string) : option string :=
  find isBareMajorTag tags.

(* ===================================================================== *)
(** * The process and its collaborators *)
(* ===================================================================== *)

(** ** Strings *)

(** ASCII white space, as removed by [String.prototype.trim]. *)
Definition is_space (c : ascii) : bool :=
  match nat_of_ascii c with
  | 9 | 10 | 11 | 12 | 13 | 32 => true
  | _ => false
  end.

Fixpoint drop_spaces (l : list ascii) : list ascii :=
  match l with
  | [] => []
  | c :: l' => if is_space c then drop_spaces l' else l
  end.

(** [s.trim()] *)
Definition trim (s : string) : string :=
  string_of_list_ascii
    (rev (drop_spaces (rev (drop_spaces (list_ascii_of_string s))))).

(** [commitHash.substring(0, 7)] *)
Definition shortenCommitHash (commitHash : string) : string :=
  substring 0 7 commitHash.

(** The line feed that ends a line of git output. *)
Definition LF : string := String (ascii_of_nat 10) EmptyString.

(** ** Calls to the git gateway ([simple-git]) *)

Inductive GitCall : Type :=
| Status                              (* git.status() *)
| FetchTags                           (* git.fetch(['--tags']) *)
| ListTags                            (* git.tags() *)
| RevParse (ref : string)             (* git.raw(['rev-parse', ref]) *)
| TagDelete (name : string)           (* git.tag(['-d', name]) *)
| TagCreate (name commit : string)    (* git.tag([name, commit]) *)
| PushForce (name : string).
    (* git.raw(['push', 'origin', `refs/tags/${name}:refs/tags/${name}`, '--force']) *)

(** ** Exceptions, prompt replies, console *)

Inductive Error : Type :=
| ExitPromptError                     (* the user left a prompt *)
| PromptFailure (name : string)       (* any other error of a prompt *)
| GitError (c : GitCall).             (* a rejected gateway call *)

Inductive Reply (A : Type) : Type :=
| Answered (a : A)
| Aborted
| Crashed (name : string).
Arguments Answered {A} a.
Arguments Aborted {A}.
Arguments Crashed {A} name.

Inductive Stream : Type := StdOut | StdErr.
Inductive Color : Type := Red | Green | Yellow | Magenta.

(** [{ tag, oldCommitHash, newCommitHash }] *)
Record ChangeRecord : Type := mkChange {
  tag : string;
  oldCommitHash : string;
  newCommitHash : string
}.

(** What a run does to the outside, in order. *)
Inductive Event : Type :=
| EvGit (c : GitCall) (ok : bool)
| EvLog (s : Stream) (col : Color) (msg : string)
| EvLogError (e : Error)                               (* console.error(err) *)
| EvSelect (message : string) (choices : list string) (r : Reply string)
| EvConfirm (message : string) (r : Reply bool).

(** ** The world *)

(** Tag refs in listing order: name and the commit the name points at. *)
Definition Refs : Type := list (string * string).

Definition lookup_ref (name : string) (refs : Refs) : option string :=
  match find (fun p => String.eqb (fst p) name) refs with
  | Some p => Some (snd p)
  | None => None
  end.

Definition delete_ref (name : string) (refs : Refs) : Refs :=
  filter (fun p => negb (String.eqb (fst p) name)) refs.

Definition set_ref (name commit : string) (refs : Refs) : Refs :=
  delete_ref name refs ++ [(name, commit)].

(** [git fetch --tags]: the remote's tags that are not known locally arrive;
    a tag that exists locally stays where it is. *)
Definition fetch_refs (loc rem : Refs) : Refs :=
  loc ++ filter (fun p => match lookup_ref (fst p) loc with
                          | Some _ => false
                          | None => true
                          end) rem.

Record World : Type := mkWorld {
  repo : bool;                        (* is the working directory a repository *)
  head_commit : option string;        (* the commit of HEAD *)
  faulty : nat -> GitCall -> bool;    (* does the n-th gateway call break *)
  local_tags : Refs;
  remote_tags : Refs;
  calls : nat;                        (* gateway calls made so far *)
  selects : list (Reply nat);         (* the user's replies to select prompts *)
  confirms : list (Reply bool);       (* the user's replies to confirm prompts *)
  changes : list ChangeRecord         (* the array [changes] of [main] *)
}.

Definition tick (w : World) : World :=
  mkWorld (repo w) (head_commit w) (faulty w) (local_tags w) (remote_tags w)
          (S (calls w)) (selects w) (confirms w) (changes w).

Definition set_local (l : Refs) (w : World) : World :=
  mkWorld (repo w) (head_commit w) (faulty w) l (remote_tags w)
          (calls w) (selects w) (confirms w) (changes w).

Definition set_remote (r : Refs) (w : World) : World :=
  mkWorld (repo w) (head_commit w) (faulty w) (local_tags w) r
          (calls w) (selects w) (confirms w) (changes w).

Definition set_selects (l : list (Reply nat)) (w : World) : World :=
  mkWorld (repo w) (head_commit w) (faulty w) (local_tags w) (remote_tags w)
          (calls w) l (confirms w) (changes w).

Definition set_confirms (l : list (Reply bool)) (w : World) : World :=
  mkWorld (repo w) (head_commit w) (faulty w) (local_tags w) (remote_tags w)
          (calls w) (selects w) l (changes w).

Definition set_changes (l : list ChangeRecord) (w : World) : World :=
  mkWorld (repo w) (head_commit w) (faulty w) (local_tags w) (remote_tags w)
          (calls w) (selects w) (confirms w) l.

(** ** The monad of the process *)

(** A computation returns, throws, or ends the process ([process.exit]),
    which no [catch] can intercept. *)
Inductive Outcome (A : Type) : Type :=
| Ok (a : A)
| Throw (e : Error)
| Exit (code : nat).
Arguments Ok {A} a.
Arguments Throw {A} e.
Arguments Exit {A} code.

Definition M (A : Type) : Type := World -> Outcome A * World * list Event.

Definition ret {A} (a : A) : M A := fun w => (Ok a, w, []).

Definition bind {A B} (m : M A) (k : A -> M B) : M B := fun w =>
  match m w with
  | (Ok a, w1, t1) =>
      match k a w1 with
      | (o, w2, t2) => (o, w2, t1 ++ t2)
      end
  | (Throw e, w1, t1) => (Throw e, w1, t1)
  | (Exit n, w1, t1) => (Exit n, w1, t1)
  end.

Notation "x <- c1 ;; c2" := (bind c1 (fun x => c2))
  (at level 61, c1 at next level, right associativity).
Notation "c1 ;; c2" := (bind c1 (fun _ => c2))
  (at level 61, right associativity).

(** [try { m } catch (err) { h err }] *)
Definition try_catch {A} (m : M A) (h : Error -> M A) : M A := fun w =>
  match m w with
  | (Throw e, w1, t1) =>
      match h e w1 with
      | (o, w2, t2) => (o, w2, t1 ++ t2)
      end
  | r => r
  end.

Definition when (b : bool) (m : M unit) : M unit :=
  if b then m else ret tt.

(** [process.exit(code)] *)
Definition process_exit {A} (code : nat) : M A := fun w => (Exit code, w, []).

(** [console.log(chalk.col(msg))] *)
Definition console_log (col : Color) (msg : string) : M unit :=
  fun w => (Ok tt, w, [EvLog StdOut col msg]).

(** [console.error(chalk.col(msg))] *)
Definition console_error (col : Color) (msg : string) : M unit :=
  fun w => (Ok tt, w, [EvLog StdErr col msg]).

(** [console.error(err)] *)
Definition console_error_obj (e : Error) : M unit :=
  fun w => (Ok tt, w, [EvLogError e]).

(** [changes.push(r)] *)
Definition changes_push (r : ChangeRecord) : M unit :=
  fun w => (Ok tt, set_changes (changes w ++ [r]) w, []).

(** [const changes = []] *)
Definition changes_init : M unit :=
  fun w => (Ok tt, set_changes [] w, []).

Definition get_changes : M (list ChangeRecord) :=
  fun w => (Ok (changes w), w, []).

(** [l.forEach(f)] *)
Fixpoint forEach {A} (l : list A) (f : A -> M unit) : M unit :=
  match l with
  | [] => ret tt
  | x :: l' => f x ;; forEach l' f
  end.

(** ** Prompts ([@inquirer/prompts]) *)

(** [select({ message, choices })].  The user moves the cursor down [i]
    times, wrapping around, and takes the choice under it; the value of that
    choice is returned.  A user who leaves the prompt raises
    [ExitPromptError]; so does a script that has run out. *)
Definition select (message : string) (choices : list (string * string))
  : M string := fun w =>
  let names := map fst choices in
  match selects w with
  | [] => (Throw ExitPromptError, w, [EvSelect message names Aborted])
  | Answered i :: rest =>
      match choices with
      | [] => (Throw (PromptFailure "ValidationError"), set_selects rest w,
               [EvSelect message names (Crashed "ValidationError")])
      | _ :: _ =>
          let v := snd (nth (i mod length choices) choices
                          (EmptyString, EmptyString)) in
          (Ok v, set_selects rest w, [EvSelect message names (Answered v)])
      end
  | Aborted :: rest =>
      (Throw ExitPromptError, set_selects rest w,
       [EvSelect message names Aborted])
  | Crashed e :: rest =>
      (Throw (PromptFailure e), set_selects rest w,
       [EvSelect message names (Crashed e)])
  end.

(** [confirm({ message, default: true })] *)
Definition confirm (message : string) : M bool := fun w =>
  match confirms w with
  | [] => (Throw ExitPromptError, w, [EvConfirm message Aborted])
  | Answered b :: rest =>
      (Ok b, set_confirms rest w, [EvConfirm message (Answered b)])
  | Aborted :: rest =>
      (Throw ExitPromptError, set_confirms rest w, [EvConfirm message Aborted])
  | Crashed e :: rest =>
      (Throw (PromptFailure e), set_confirms rest w,
       [EvConfirm message (Crashed e)])
  end.

(** ** The git gateway *)

(** The environment rejects the call [c]: the working directory is not a
    repository, or the call breaks ([faulty]: the network, the remote). *)
Definition broken (c : GitCall) (w : World) : bool :=
  negb (repo w) || faulty w (calls w) c.

(** A gateway call [c] with the effect [sem]: it throws when the environment
    rejects it or when git itself refuses it ([sem] gives [None]), and then
    changes nothing but the count of calls. *)
Definition gitop {A} (c : GitCall) (sem : World -> option (A * World))
  : M A := fun w =>
  let w1 := tick w in
  if broken c w
  then (Throw (GitError c), w1, [EvGit c false])
  else match sem w1 with
       | Some (a, w2) => (Ok a, w2, [EvGit c true])
       | None => (Throw (GitError c), w1, [EvGit c false])
       end.

Definition git_status : M unit :=
  gitop Status (fun w => Some (tt, w)).

Definition git_fetch_tags : M unit :=
  gitop FetchTags
    (fun w => Some (tt, set_local (fetch_refs (local_tags w) (remote_tags w)) w)).

(** [(await git.tags()).all] *)
Definition git_tags : M (list string) :=
  gitop ListTags (fun w => Some (map fst (local_tags w), w)).

Definition resolve_ref (ref : string) (w : World) : option string :=
  if String.eqb ref "HEAD" then head_commit w else lookup_ref ref (local_tags w).

(** [git rev-parse ref] prints the commit and a line feed. *)
Definition git_rev_parse (ref : string) : M string :=
  gitop (RevParse ref)
    (fun w => match resolve_ref ref w with
              | Some c => Some ((c ++ LF)%string, w)
              | None => None
              end).

Definition git_tag_delete (name : string) : M unit :=
  gitop (TagDelete name)
    (fun w => match lookup_ref name (local_tags w) with
              | Some _ => Some (tt, set_local (delete_ref name (local_tags w)) w)
              | None => None
              end).

Definition git_tag_create (name commit : string) : M unit :=
  gitop (TagCreate name commit)
    (fun w => match lookup_ref name (local_tags w) with
              | Some _ => None
              | None => Some (tt, set_local (local_tags w ++ [(name, commit)]) w)
              end).

Definition git_push_force (name : string) : M unit :=
  gitop (PushForce name)
    (fun w => match lookup_ref name (local_tags w) with
              | Some c => Some (tt, set_remote (set_ref name c (remote_tags w)) w)
              | None => None
              end).

(* ===================================================================== *)
(** * The program ([src/index.js]) *)
(* ===================================================================== *)

Definition isGitRepo : M bool :=
  try_catch
    (git_status ;;
     ret true)
    (fun _ =>
       console_log Red "Not a Git repository." ;;
       ret false).

Definition getTags : M (list string) :=
  try_catch
    (git_fetch_tags ;;
     tags <- git_tags ;;
     ret tags)
    (fun _ =>
       console_error Red "Error fetching tags." ;;
       process_exit 1).

Definition getLatestCommitHash : M string :=
  try_catch
    (commitHash <- git_rev_parse "HEAD" ;;
     ret (trim commitHash))
    (fun _ =>
       console_error Red "Error retrieving latest commit hash." ;;
       process_exit 1).

Definition getCommitOfTag (tag : string) : M string :=
  try_catch
    (commitHash <- git_rev_parse tag ;;
     ret (trim commitHash))
    (fun _ =>
       console_error Red "Error retrieving commit hash for tag." ;;
       process_exit 1).

Definition deleteLocalTag (tag : string) : M unit :=
  try_catch
    (git_tag_delete tag ;;
     console_log Green ("Local tag " ++ tag ++ " deleted.")%string)
    (fun _ =>
       console_error Red "Error deleting local tag." ;;
       process_exit 1).

Definition forcePushTag (tag : string) : M unit :=
  try_catch
    (git_push_force tag ;;
     console_log Green ("Tag " ++ tag ++ " force-pushed to GitHub.")%string)
    (fun _ =>
       console_error Red "Error force-pushing tag." ;;
       process_exit 1).

Definition updateTag (tag commitHash : string) : M ChangeRecord :=
  oldCommitHash <- getCommitOfTag tag ;;
  let shortOldCommitHash := shortenCommitHash oldCommitHash in
  let shortNewCommitHash := shortenCommitHash commitHash in
  console_log Green
    ("Updating tag " ++ tag ++ " to point to commit " ++ shortNewCommitHash)%string ;;
  try_catch
    (deleteLocalTag tag ;;
     git_tag_create tag commitHash ;;
     forcePushTag tag ;;
     console_log Green
       ("Tag " ++ tag ++ " updated from " ++ shortOldCommitHash
          ++ " to " ++ shortNewCommitHash)%string ;;
     ret (mkChange tag oldCommitHash commitHash))
    (fun err =>
       console_error Red "Error updating tag." ;;
       console_error_obj err ;;
       process_exit 1).

Definition updateRootTag (rootTag commitHash : string) : M ChangeRecord :=
  oldCommitHash <- getCommitOfTag rootTag ;;
  let shortOldCommitHash := shortenCommitHash oldCommitHash in
  let shortNewCommitHash := shortenCommitHash commitHash in
  console_log Green
    ("Updating root tag " ++ rootTag ++ " to point to commit "
       ++ shortNewCommitHash)%string ;;
  try_catch
    (deleteLocalTag rootTag ;;
     git_tag_create rootTag commitHash ;;
     forcePushTag rootTag ;;
     console_log Green
       ("Root tag " ++ rootTag ++ " updated from " ++ shortOldCommitHash
          ++ " to " ++ shortNewCommitHash)%string ;;
     ret (mkChange rootTag oldCommitHash commitHash))
    (fun err =>
       console_error Red "Error updating root tag." ;;
       console_error_obj err ;;
       process_exit 1).

(** The choices that [tags.map(tag => ({ name: tag, value: tag }))] builds. *)
Definition tagChoices (tags : list string) : list (string * string) :=
  map (fun tag => (tag, tag)) tags.

(** JavaScript truthiness of what [find] returns. *)
Definition truthy_opt (o : option string) : bool :=
  match o with
  | Some s => truthy s
  | None => false
  end.

(** [main], the branch [action === 'update'] (lines 149-211). *)
Definition main_update : M unit :=
  tags <- getTags ;;
  let nonRootTags := filterNonRootTags tags in
  when (Nat.eqb (length nonRootTags) 0)
    (console_log Yellow "No tags available for update." ;;
     process_exit 1) ;;
  selectedTag <- select "Select a tag to update:" (tagChoices nonRootTags) ;;
  when (negb (truthy selectedTag))
    (console_log Red "Selected tag is undefined or null." ;;
     process_exit 1) ;;
  latestCommitHash <- getLatestCommitHash ;;
  let shortCommitHash := shortenCommitHash latestCommitHash in
  confirmed <- confirm
    ("Do you want to update tag " ++ selectedTag
       ++ " to point to the latest commit (" ++ shortCommitHash ++ ")?")%string ;;
  if confirmed then
    match getRootTag tags with
    | Some rootTag =>
        if truthy rootTag then
          rootTagCommitHash <- getCommitOfTag rootTag ;;
          selectedTagCommitHash <- getCommitOfTag selectedTag ;;
          if String.eqb rootTagCommitHash selectedTagCommitHash then
            updatedTag <- updateTag selectedTag latestCommitHash ;;
            changes_push updatedTag ;;
            console_log Green
              ("Tag " ++ selectedTag ++ " was updated. Found a matching root tag "
                 ++ rootTag ++ ".")%string ;;
            updateRootTagConfirmed <- confirm
              ("Do you also want to update the root tag to point to the updated "
                 ++ selectedTag ++ " (" ++ shortCommitHash ++ ")?")%string ;;
            if updateRootTagConfirmed then
              updatedRootTag <- updateRootTag rootTag latestCommitHash ;;
              changes_push updatedRootTag
            else
              console_log Yellow "Root tag update skipped."
          else
            updatedTag <- updateTag selectedTag latestCommitHash ;;
            changes_push updatedTag
        else
          updatedTag <- updateTag selectedTag latestCommitHash ;;
          changes_push updatedTag
    | None =>
        updatedTag <- updateTag selectedTag latestCommitHash ;;
        changes_push updatedTag
    end
  else
    console_log Yellow "Tag update canceled.".

(** [main], the branch [action === 'bump'] (lines 213-253). *)
Definition main_bump : M unit :=
  tags <- getTags ;;
  let versionTags := filterVersionTags tags in
  when (Nat.eqb (length versionTags) 0)
    (console_log Yellow "No version tags found." ;;
     process_exit 1) ;;
  selectedTag <- select "Select a version tag to bump the root tag to:"
                   (tagChoices versionTags) ;;
  when (negb (truthy selectedTag))
    (console_log Red "Selected tag is undefined or null." ;;
     process_exit 1) ;;
  let rootTag := getRootTag tags in
  when (negb (truthy_opt rootTag))
    (console_log Yellow "No root tag found. Exiting." ;;
     process_exit 1) ;;
  (* past this point [rootTag] is a string: [process.exit] does not return *)
  let rootTag := match rootTag with Some r => r | None => "undefined" end in
  commitHash <- getCommitOfTag selectedTag ;;
  let shortCommitHash := shortenCommitHash commitHash in
  confirmed <- confirm
    ("Do you want to bump root tag " ++ rootTag
       ++ " to point to the commit of tag " ++ selectedTag
       ++ " (" ++ shortCommitHash ++ ")?")%string ;;
  if confirmed then
    updatedRootTag <- updateRootTag rootTag commitHash ;;
    changes_push updatedRootTag
  else
    console_log Yellow "Root tag update canceled.".

(** [main], the summary printed after the chosen branch (lines 259-265). *)
Definition main_summary : M unit :=
  changes <- get_changes ;;
  when (Nat.ltb 0 (length changes))
    (console_log Magenta "Summary of changes:" ;;
     forEach changes (fun change =>
       console_log Magenta
         ("Tag " ++ tag change ++ ": " ++ shortenCommitHash (oldCommitHash change)
            ++ " -> " ++ shortenCommitHash (newCommitHash change))%string)).

(** [main], the handler of its [catch] (lines 266-274). *)
Definition main_catch (err : Error) : M unit :=
  match err with
  | ExitPromptError => console_log Yellow "Canceled by User"
  | _ =>
      console_error Red "An unexpected error occurred." ;;
      console_error_obj err
  end ;;
  process_exit 1.

Definition main : M unit :=
  changes_init ;;
  try_catch
    (isRepo <- isGitRepo ;;
     if negb isRepo then ret tt
     else
       action <- select "What would you like to do?"
                   [("Update a Tag", "update"); ("Bump a Root Tag", "bump")] ;;
       (if String.eqb action "update" then main_update
        else if String.eqb action "bump" then main_bump
        else
          console_log Red "Invalid action selected." ;;
          process_exit 1) ;;
       main_summary)
    main_catch.

(** The status the process ends with: the argument of [process.exit], or 0
    when [main] returns and nothing is left to run. *)
Definition exit_status {A} (r : Outcome A * World * list Event) : nat :=
  match r with
  | (Exit code, _, _) => code
  | (Ok _, _, _) => 0
  | (Throw _, _, _) => 1
  end.

(* ===================================================================== *)
(** * The earlier program ([src/unnamed/part_000]) *)
(* ===================================================================== *)

(** The retarget operations of the earlier version (lines 88-118): they
    neither resolve the tag first nor return a record.  The helpers they
    call are those of [src/index.js], line for line. *)
Module Part000.

Definition updateTag (tag commitHash : string) : M unit :=
  console_log Green
    ("Updating tag " ++ tag ++ " to point to commit "
       ++ shortenCommitHash commitHash)%string ;;
  try_catch
    (deleteLocalTag tag ;;
     git_tag_create tag commitHash ;;
     forcePushTag tag)
    (fun err =>
       console_error Red "Error updating tag." ;;
       console_error_obj err ;;
       process_exit 1).

Definition updateRootTag (rootTag commitHash : string) : M unit :=
  console_log Green
    ("Updating root tag " ++ rootTag ++ " to point to commit "
       ++ shortenCommitHash commitHash)%string ;;
  try_catch
    (deleteLocalTag rootTag ;;
     git_tag_create rootTag commitHash ;;
     forcePushTag rootTag)
    (fun err =>
       console_error Red "Error updating root tag." ;;
       console_error_obj err ;;
       process_exit 1).

End Part000.

(* ===================================================================== *)
(** * Auxiliary definitions for the statements *)
(* ===================================================================== *)

(** The runs of a retarget ([updateTag], [updateRootTag]) laid out as a
    decision tree over the answers of the gateway; [starting], [failed] and
    [done] are the messages in which the two functions differ.
    [updateTag_run] and [updateRootTag_run] prove that the functions run
    exactly like this. *)
Definition retarget_tree (starting failed : string) (done : string -> string)
    (tag commitHash : string) (w : World)
  : Outcome ChangeRecord * World * list Event :=
  match (if broken (RevParse tag) w then None else resolve_ref tag w) with
  | None =>
      (Exit 1, tick w,
       [EvGit (RevParse tag) false;
        EvLog StdErr Red "Error retrieving commit hash for tag."])
  | Some c0 =>
      let oldCommitHash := trim (c0 ++ LF) in
      let w1 := tick w in
      let t1 := [EvGit (RevParse tag) true; EvLog StdOut Green starting] in
      match (if broken (TagDelete tag) w1 then None
             else lookup_ref tag (local_tags w)) with
      | None =>
          (Exit 1, tick w1,
           t1 ++ [EvGit (TagDelete tag) false;
                  EvLog StdErr Red "Error deleting local tag."])
      | Some _ =>
          let w2 := set_local (delete_ref tag (local_tags w)) (tick w1) in
          let t2 := t1 ++ [EvGit (TagDelete tag) true;
                           EvLog StdOut Green
                             ("Local tag " ++ tag ++ " deleted.")%string] in
          if broken (TagCreate tag commitHash) w2 then
            (Exit 1, tick w2,
             t2 ++ [EvGit (TagCreate tag commitHash) false;
                    EvLog StdErr Red failed;
                    EvLogError (GitError (TagCreate tag commitHash))])
          else
            let w3 := set_local (delete_ref tag (local_tags w)
                                   ++ [(tag, commitHash)]) (tick w2) in
            let t3 := t2 ++ [EvGit (TagCreate tag commitHash) true] in
            if broken (PushForce tag) w3 then
              (Exit 1, tick w3,
               t3 ++ [EvGit (PushForce tag) false;
                      EvLog StdErr Red "Error force-pushing tag."])
            else
              (Ok (mkChange tag oldCommitHash commitHash),
               set_remote (set_ref tag commitHash (remote_tags w)) (tick w3),
               t3 ++ [EvGit (PushForce tag) true;
                      EvLog StdOut Green
                        ("Tag " ++ tag ++ " force-pushed to GitHub.")%string;
                      EvLog StdOut Green (done oldCommitHash)])
      end
  end.

(** ** Weakest preconditions *)

(** [wp m w t0 Q]: the run of [m] from the world [w], coming after the
    events [t0], satisfies [Q]. *)
Definition wp {A} (m : M A) (w : World) (t0 : list Event)
    (Q : Outcome A * World * list Event -> Prop) : Prop :=
  match m w with
  | (o, w', t) => Q (o, w', t0 ++ t)
  end.

(** ** Observations on a trace *)

(** The gateway accepted the call, or the user answered the prompt. *)
Definition event_ok (e : Event) : bool :=
  match e with
  | EvGit _ ok => ok
  | EvSelect _ _ (Answered _) => true
  | EvSelect _ _ _ => false
  | EvConfirm _ (Answered _) => true
  | EvConfirm _ _ => false
  | EvLog _ _ _ => true
  | EvLogError _ => true
  end.

(** The gateway calls of a trace, in order, each with its success. *)
Fixpoint git_calls (t : list Event) : list (GitCall * bool) :=
  match t with
  | [] => []
  | EvGit c ok :: t' => (c, ok) :: git_calls t'
  | _ :: t' => git_calls t'
  end.

(** The confirm prompts of a trace, in order. *)
Fixpoint confirm_prompts (t : list Event) : list string :=
  match t with
  | [] => []
  | EvConfirm message _ :: t' => message :: confirm_prompts t'
  | _ :: t' => confirm_prompts t'
  end.

(** The lines written to the console, in order. *)
Fixpoint console_lines (t : list Event) : list (Stream * string) :=
  match t with
  | [] => []
  | EvLog s _ msg :: t' => (s, msg) :: console_lines t'
  | _ :: t' => console_lines t'
  end.

(** The user left a prompt of the trace. *)
Definition prompt_aborted (e : Event) : bool :=
  match e with
  | EvSelect _ _ Aborted => true
  | EvConfirm _ Aborted => true
  | _ => false
  end.

(** A prompt of the trace failed with another error. *)
Definition prompt_crashed (e : Event) : bool :=
  match e with
  | EvSelect _ _ (Crashed _) => true
  | EvConfirm _ (Crashed _) => true
  | _ => false
  end.

(** ** Results of a run *)

Definition outcome_of {A} (r : Outcome A * World * list Event) : Outcome A :=
  fst (fst r).

Definition world_of {A} (r : Outcome A * World * list Event) : World :=
  snd (fst r).

Definition trace_of {A} (r : Outcome A * World * list Event) : list Event :=
  snd r.

(** The working directory is a repository and no gateway call breaks. *)
Definition healthy (w : World) : Prop :=
  repo w = true /\ forall n c, faulty w n c = false.

(** The gateway calls of a retarget of [tag] to [commitHash], in order. *)
Definition retarget_calls (tag commitHash : string) : list GitCall :=
  [RevParse tag; TagDelete tag; TagCreate tag commitHash; PushForce tag].

(** The contract of a retarget operation [f]: the gateway calls of a run
    are an initial part of [retarget_calls]; a run that returns has made all
    of them with success, and returns the record of the tag, the commit the
    tag resolved to before, and the destination, the tag pointing at the
    destination locally and on the remote; and in a healthy world a tag that
    exists does make the run return. *)
Definition retarget_contract (f : string -> string -> M ChangeRecord) : Prop :=
  forall (tag commitHash : string) (w : World),
    let r := f tag commitHash w in
    (exists n, map fst (git_calls (trace_of r))
               = firstn n (retarget_calls tag commitHash)) /\
    (forall rec, outcome_of r = Ok rec ->
       exists c0,
         resolve_ref tag w = Some c0 /\
         rec = mkChange tag (trim (c0 ++ LF)) commitHash /\
         git_calls (trace_of r)
         = map (fun c => (c, true)) (retarget_calls tag commitHash) /\
         lookup_ref tag (local_tags (world_of r)) = Some commitHash /\
         lookup_ref tag (remote_tags (world_of r)) = Some commitHash) /\
    (healthy w -> resolve_ref tag w <> None ->
     lookup_ref tag (local_tags w) <> None ->
     exists rec, outcome_of r = Ok rec).

(** A world for the examples: the tags [v1] and [v1.2] on one commit,
    [v1.1] on another, HEAD on a third. *)
Definition example_world : World :=
  mkWorld true (Some "dddddddddddd") (fun _ _ => false)
    [("v1", "cccccccccccc"); ("v1.2", "cccccccccccc"); ("v1.1", "bbbbbbbbbbbb")]
    [("v1", "cccccccccccc")]
    0 [Answered 0; Answered 0] [Answered true; Answered true] [].

(** The world after a retarget of [tag] to [commitHash] that went through:
    four gateway calls later, the tag points at [commitHash] locally and on
    the remote. *)
Definition retargeted (tag commitHash : string) (w : World) : World :=
  set_remote (set_ref tag commitHash (remote_tags w))
    (set_local (delete_ref tag (local_tags w) ++ [(tag, commitHash)])
       (tick (tick (tick (tick w))))).

(** A successful force-push among the gateway calls. *)
Definition pushed (c : GitCall * bool) : bool :=
  match c with
  | (PushForce _, true) => true
  | _ => false
  end.

(** A working directory that is not a repository. *)
Definition norepo_world : World :=
  mkWorld false None (fun _ _ => false) [] [] 0 [] [] [].

(** [example_world] with the root tag [v1] on a commit of its own and a
    user who confirms once. *)
Definition example_world_apart : World :=
  mkWorld true (Some "dddddddddddd") (fun _ _ => false)
    [("v1", "aaaaaaaaaaaa"); ("v1.2", "cccccccccccc"); ("v1.1", "bbbbbbbbbbbb")]
    [("v1", "aaaaaaaaaaaa")]
    0 [Answered 0; Answered 0] [Answered true] [].

(** [example_world] with a remote that rejects the push of [v1.2]. *)
Definition example_world_push_rejected : World :=
  mkWorld true (Some "dddddddddddd")
    (fun _ c => match c with
                | PushForce name => String.eqb name "v1.2"
                | _ => false
                end)
    [("v1", "cccccccccccc"); ("v1.2", "cccccccccccc"); ("v1.1", "bbbbbbbbbbbb")]
    [("v1", "cccccccccccc")]
    0 [Answered 0; Answered 0] [Answered true; Answered true] [].

(** [example_world] with a user who leaves the second prompt. *)
Definition example_world_cancelled : World :=
  mkWorld true (Some "dddddddddddd") (fun _ _ => false)
    [("v1", "cccccccccccc"); ("v1.2", "cccccccccccc"); ("v1.1", "bbbbbbbbbbbb")]
    [("v1", "cccccccccccc")]
    0 [Answered 0; Aborted] [] [].

(** ** White space at the ends of a string *)

Definition starts_clean (l : list ascii) : bool :=
  match l with
  | [] => true
  | c :: _ => negb (is_space c)
  end.

Definition clean (s : string) : bool :=
  starts_clean (list_ascii_of_string s)
  && starts_clean (rev (list_ascii_of_string s)).

(** A run that stopped at the first rejected gateway call: the events before
    it went well, a red line on the standard error follows it, and no
    gateway call comes after. *)
Definition stops_at_first_failure (t : list Event) : Prop :=
  exists t0 c msg rest,
    t = t0 ++ EvGit c false :: EvLog StdErr Red msg :: rest /\
    forallb event_ok t0 = true /\
    git_calls rest = [].

(** [m] handles its own errors: no exception leaves it; it returns after
    events that all went well, or it ends the process with status 1 at the
    first rejected gateway call. *)
Definition contained {A} (m : M A) : Prop :=
  forall w,
    match outcome_of (m w) with
    | Ok _ => forallb event_ok (trace_of (m w)) = true
    | Throw _ => False
    | Exit code => code = 1 /\ stops_at_first_failure (trace_of (m w))
    end.

(** A retarget [f] that fails half-way is not rolled back. *)
Definition no_rollback (f : string -> string -> M ChangeRecord) : Prop :=
  forall (tag commitHash : string) (w : World),
    let r := f tag commitHash w in
    (In (TagCreate tag commitHash, false) (git_calls (trace_of r)) ->
       outcome_of r = Exit 1 /\
       lookup_ref tag (local_tags w) <> None /\
       lookup_ref tag (local_tags (world_of r)) = None /\
       remote_tags (world_of r) = remote_tags w) /\
    (In (PushForce tag, false) (git_calls (trace_of r)) ->
       outcome_of r = Exit 1 /\
       lookup_ref tag (local_tags (world_of r)) = Some commitHash /\
       remote_tags (world_of r) = remote_tags w).

(** What a retarget [f] of a tag leaves alone, however it ends. *)
Definition retarget_frame (f : string -> string -> M ChangeRecord) : Prop :=
  forall (tag commitHash : string) (w : World) (other : string),
    other <> tag ->
    let r := f tag commitHash w in
    lookup_ref other (local_tags (world_of r)) = lookup_ref other (local_tags w) /\
    lookup_ref other (remote_tags (world_of r))
    = lookup_ref other (remote_tags w) /\
    head_commit (world_of r) = head_commit w /\
    selects (world_of r) = selects w /\
    confirms (world_of r) = confirms w /\
    changes (world_of r) = changes w.

(** Reading a tag back after a retarget [f] that returned. *)
Definition retarget_read_back (f : string -> string -> M ChangeRecord) : Prop :=
  forall (tag commitHash : string) (w : World) (rec : ChangeRecord),
    tag <> "HEAD" ->
    outcome_of (f tag commitHash w) = Ok rec ->
    let w' := world_of (f tag commitHash w) in
    broken (RevParse tag) w' = false ->
    outcome_of (getCommitOfTag tag w') = Ok (trim (commitHash ++ LF)) /\
    outcome_of (getCommitOfTag tag w') = Ok (trim (newCommitHash rec ++ LF)).

Definition example_world_create_rejected : World :=
  mkWorld true (Some "dddddddddddd")
    (fun _ c => match c with
                | TagCreate _ _ => true
                | _ => false
                end)
    [("v1", "cccccccccccc"); ("v1.2", "cccccccccccc"); ("v1.1", "bbbbbbbbbbbb")]
    [("v1", "cccccccccccc")]
    0 [Answered 0; Answered 0] [Answered true; Answered true] [].


(** ** Confirmation before mutation *)

(** The trace read from its start: every attempt to delete a tag uses up
    one confirm prompt answered yes ([yes] counts the unused ones), and a
    tag is created or pushed only under the name [cur] of the last delete. *)
Fixpoint authorised (yes : nat) (cur : option string) (t : list Event) : bool :=
  match t with
  | [] => true
  | EvConfirm _ (Answered true) :: t' => authorised (S yes) cur t'
  | EvGit (TagDelete name) _ :: t' =>
      match yes with
      | 0 => false
      | S n => authorised n (Some name) t'
      end
  | EvGit (TagCreate name _) _ :: t' =>
      match cur with
      | Some n => String.eqb n name && authorised yes cur t'
      | None => false
      end
  | EvGit (PushForce name) _ :: t' =>
      match cur with
      | Some n => String.eqb n name && authorised yes cur t'
      | None => false
      end
  | _ :: t' => authorised yes cur t'
  end.

(** The gateway calls that change tags. *)
Definition mutating (c : GitCall) : bool :=
  match c with
  | TagDelete _ | TagCreate _ _ | PushForce _ => true
  | _ => false
  end.

(** The user said yes to a confirm prompt. *)
Definition confirmed_yes (e : Event) : bool :=
  match e with
  | EvConfirm _ (Answered true) => true
  | _ => false
  end.

(** The line of the summary for one Change Record. *)
Definition summary_line (change : ChangeRecord) : Stream * string :=
  (StdOut,
   ("Tag " ++ tag change ++ ": " ++ shortenCommitHash (oldCommitHash change)
      ++ " -> " ++ shortenCommitHash (newCommitHash change))%string).

(** [example_world] with a user who declines the update. *)
Definition example_world_declined : World :=
  mkWorld true (Some "dddddddddddd") (fun _ _ => false)
    [("v1", "cccccccccccc"); ("v1.2", "cccccccccccc"); ("v1.1", "bbbbbbbbbbbb")]
    [("v1", "cccccccccccc")]
    0 [Answered 0; Answered 0] [Answered false] [].

(** The later retarget [new] is the earlier one [old] after the resolution
    of the tag: when the tag resolves, both leave the same world and make the
    same calls after the rev-parse, and one returns when the other does;
    when it does not resolve, the later one stops before it changes a
    tag. *)
Definition extends_earlier (new : string -> string -> M ChangeRecord)
    (old : string -> string -> M unit) : Prop :=
  forall (tag commitHash : string) (w : World),
    let rn := new tag commitHash w in
    let ro := old tag commitHash (tick w) in
    (forall c0,
       broken (RevParse tag) w = false -> resolve_ref tag w = Some c0 ->
       world_of rn = world_of ro /\
       git_calls (trace_of rn) = (RevParse tag, true) :: git_calls (trace_of ro) /\
       (outcome_of ro = Ok tt <->
        outcome_of rn = Ok (mkChange tag (trim (c0 ++ LF)) commitHash)) /\
       (outcome_of ro = Exit 1 <-> outcome_of rn = Exit 1)) /\
    (broken (RevParse tag) w = true \/ resolve_ref tag w = None ->
     outcome_of rn = Exit 1 /\
     git_calls (trace_of rn) = [(RevParse tag, false)] /\
     local_tags (world_of rn) = local_tags w /\
     remote_tags (world_of rn) = remote_tags w).

(** ** Order-preserving selection: [l1] is [l2] with some elements left out. *)
Inductive Subseq {A : Type} : list A -> list A -> Prop :=
| SubNil : Subseq [] []
| SubSkip x l1 l2 : Subseq l1 l2 -> Subseq l1 (x :: l2)
| SubTake x l1 l2 : Subseq l1 l2 -> Subseq (x :: l1) (x :: l2).

(* ===================================================================== *)
(** * The matcher computes the denotation *)
(* ===================================================================== *)

Ltac inv_matches :=
  repeat match goal with
    | H : matches Void _ |- _ => inversion H
    | H : matches Eps _ |- _ => inversion H; clear H; subst
    | H : matches (Chr _) _ |- _ => inversion H; clear H; subst
    | H : matches Digit _ |- _ => inversion H; clear H; subst
    | H : matches (Seq _ _) _ |- _ => inversion H; clear H; subst
    | H : matches (Alt _ _) _ |- _ => inversion H; clear H; subst
    end.

Section RegExpFacts.

Lemma app_nil_inv (A : Type) (s1 s2 : list A) :
  s1 ++ s2 = [] -> s1 = [] /\ s2 = [].
Proof. destruct s1; simpl; intros H; [auto | discriminate]. Qed.

Lemma nullable_sound r : nullable r = true -> matches r [].
Proof.
  induction r; simpl; intros H; try discriminate.
  - constructor.
  - apply andb_true_iff in H as [H1 H2].
    change (@nil ascii) with (@nil ascii ++ []). constructor; auto.
  - apply orb_true_iff in H as [H | H]; [apply MAltL | apply MAltR]; auto.
  - constructor.
Qed.

Lemma nullable_complete r s : matches r s -> s = [] -> nullable r = true.
Proof.
  induction 1; simpl; intros E; try discriminate; auto.
  - apply app_nil_inv in E as [E1 E2]. rewrite IHmatches1, IHmatches2; auto.
  - rewrite IHmatches; auto.
  - rewrite IHmatches; auto using orb_true_r.
Qed.

Lemma nullable_matches r : nullable r = true <-> matches r [].
Proof.
  split; [apply nullable_sound | intros H; eapply nullable_complete; eauto].
Qed.

(** A non-empty word of [r*] starts with a non-empty word of [r]. *)
Lemma matches_star_cons r a s :
  matches (Star r) (a :: s) ->
  exists s1 s2, s = s1 ++ s2 /\ matches r (a :: s1) /\ matches (Star r) s2.
Proof.
  intros H. remember (Star r) as r' eqn:Er. remember (a :: s) as s' eqn:Es.
  revert r a s Er Es.
  induction H; intros r0 a0 s0 Er Es; try discriminate.
  injection Er as ->.
  destruct s1 as [| b s1'].
  - simpl in Es. eapply IHmatches2; eauto.
  - simpl in Es. injection Es as <- <-. exists s1', s2. auto.
Qed.

Lemma deriv_sound a r : forall s, matches (deriv a r) s -> matches r (a :: s).
Proof.
  induction r; simpl; intros s H.
  - inv_matches.
  - inv_matches.
  - destruct (Ascii.eqb_spec a c); inv_matches. constructor.
  - destruct (is_digit a) eqn:D; inv_matches. constructor; auto.
  - destruct (nullable r1) eqn:N; inv_matches.
    + change (a :: s1 ++ s2) with ((a :: s1) ++ s2). constructor; auto.
    + change (a :: s) with ([] ++ a :: s).
      constructor; auto using nullable_sound.
    + change (a :: s1 ++ s2) with ((a :: s1) ++ s2). constructor; auto.
  - inv_matches; [apply MAltL | apply MAltR]; auto.
  - inv_matches.
    change (a :: s1 ++ s2) with ((a :: s1) ++ s2). constructor; auto.
Qed.

Lemma deriv_complete a r : forall s, matches r (a :: s) -> matches (deriv a r) s.
Proof.
  induction r; simpl; intros s H.
  - inv_matches.
  - inversion H.
  - inversion H; subst. rewrite Ascii.eqb_refl. constructor.
  - inversion H as [| | c D | | | | |]; subst. rewrite D. constructor.
  - inversion H as [| | | ? ? s1 s2 H1 H2 | | | |]; subst.
    destruct s1 as [| b s1']; simpl in *.
    + subst s2. rewrite (nullable_complete _ _ H1 eq_refl).
      apply MAltR. auto.
    + match goal with E : _ :: _ = _ :: _ |- _ => injection E as -> <- end.
      destruct (nullable r1); [apply MAltL |]; constructor; auto.
  - inv_matches; [apply MAltL | apply MAltR]; auto.
  - apply matches_star_cons in H as (s1 & s2 & -> & H1 & H2).
    constructor; auto.
Qed.

Lemma prefix_match_sound r : forall s,
  prefix_match r s = true -> exists p q, s = p ++ q /\ matches r p.
Proof.
  intros s; revert r.
  induction s as [| a s IH]; intros r; simpl; intros H.
  - rewrite orb_false_r in H. exists [], []. auto using nullable_sound.
  - apply orb_true_iff in H as [H | H].
    + exists [], (a :: s). auto using nullable_sound.
    + apply IH in H as (p & q & -> & H). exists (a :: p), q.
      auto using deriv_sound.
Qed.

Lemma prefix_match_complete r : forall p q,
  matches r p -> prefix_match r (p ++ q) = true.
Proof.
  intros p; revert r.
  induction p as [| a p IH]; intros r q H.
  - apply nullable_matches in H. destruct q; simpl; rewrite H; auto.
  - simpl. rewrite IH; auto using deriv_complete, orb_true_r.
Qed.

(** [/^r/.test(s)] holds exactly when a prefix of [s] is a word of [r]. *)
Lemma test_spec r s :
  test r s = true <->
  exists p q, list_ascii_of_string s = p ++ q /\ matches r p.
Proof.
  unfold test. split.
  - apply prefix_match_sound.
  - intros (p & q & -> & H). auto using prefix_match_complete.
Qed.

Lemma matches_seq_inv r1 r2 p :
  matches (Seq r1 r2) p ->
  exists s1 s2, p = s1 ++ s2 /\ matches r1 s1 /\ matches r2 s2.
Proof. intros H. inversion H; subst. eauto. Qed.

Lemma matches_chr_inv c p : matches (Chr c) p -> p = [c].
Proof. intros H. inversion H; subst. reflexivity. Qed.

(** The words of [\d+] start with a digit. *)
Lemma matches_plus_digit p :
  matches (Plus Digit) p -> exists d p', p = d :: p' /\ is_digit d = true.
Proof.
  intros H. apply matches_seq_inv in H as (s1 & s2 & -> & H1 & _).
  inversion H1; subst. simpl. eauto.
Qed.

(** [/^v\d+/] accepts exactly the names that start with [v] and a digit. *)
Lemma test_rootTagPattern s :
  test rootTagPattern s = true <->
  exists d rest, s = String "v" (String d rest) /\ is_digit d = true.
Proof.
  rewrite test_spec. split.
  - intros (p & q & E & H).
    apply matches_seq_inv in H as (s1 & s2 & -> & H1 & H2).
    apply matches_chr_inv in H1 as ->.
    apply matches_plus_digit in H2 as (d & p' & -> & D).
    exists d, (string_of_list_ascii (p' ++ q)). split; auto.
    rewrite <- (string_of_list_ascii_of_string s), E. reflexivity.
  - intros (d & rest & -> & D).
    exists ["v"%char; d], (list_ascii_of_string rest). split; [reflexivity |].
    change ["v"%char; d] with (["v"%char] ++ ([d] ++ [])).
    repeat constructor; auto.
Qed.

(** Every name that [/^v\d+\.\d+/] accepts is accepted by [/^v\d+/]. *)
Lemma versionTagPattern_rootTagPattern s :
  test versionTagPattern s = true -> test rootTagPattern s = true.
Proof.
  intros H. apply test_rootTagPattern.
  apply test_spec in H as (p & q & E & H).
  apply matches_seq_inv in H as (s1 & s2 & -> & H1 & H2).
  apply matches_chr_inv in H1 as ->.
  apply matches_seq_inv in H2 as (s3 & s4 & -> & H3 & _).
  apply matches_plus_digit in H3 as (d & p' & -> & D).
  exists d, (string_of_list_ascii ((p' ++ s4) ++ q)). split; auto.
  rewrite <- (string_of_list_ascii_of_string s), E. reflexivity.
Qed.

End RegExpFacts.

(* ===================================================================== *)
(** * Tag classifier: facts *)
(* ===================================================================== *)

Section Classifier.

Implicit Types (tags : list string) (t r : string).

Lemma rootTagPattern_truthy r : test rootTagPattern r = true -> truthy r = true.
Proof.
  intros H. apply test_rootTagPattern in H as (d & rest & -> & _). reflexivity.
Qed.

(** [getRootTag] returns the first name that [/^v\d+/] accepts. *)
Lemma getRootTag_Some tags r :
  getRootTag tags = Some r <->
  exists l1 l2, tags = l1 ++ r :: l2 /\
                test rootTagPattern r = true /\
                forall t, In t l1 -> test rootTagPattern t = false.
Proof.
  unfold getRootTag. split.
  - induction tags as [| x tags IH]; simpl; [discriminate |].
    destruct (test rootTagPattern x) eqn:X.
    + intros [= ->]. exists [], tags. simpl. tauto.
    + intros H. destruct (IH H) as (l1 & l2 & -> & R & F).
      exists (x :: l1), l2. repeat split; auto.
      intros t [<- | Ht]; auto.
  - intros (l1 & l2 & -> & R & F).
    induction l1 as [| x l1 IH]; simpl.
    + rewrite R. reflexivity.
    + rewrite (F x (or_introl eq_refl)). apply IH.
      intros t Ht. apply F. right. exact Ht.
Qed.

Lemma getRootTag_None tags :
  getRootTag tags = None <->
  forall t, In t tags -> test rootTagPattern t = false.
Proof.
  unfold getRootTag. split.
  - intros H t Ht. exact (find_none _ _ H t Ht).
  - induction tags as [| x tags IH]; simpl; intros H; [reflexivity |].
    rewrite (H x (or_introl eq_refl)). apply IH.
    intros t Ht. apply H. right. exact Ht.
Qed.

Lemma getRootTag_truthy tags r : getRootTag tags = Some r -> truthy r = true.
Proof.
  intros H. apply getRootTag_Some in H as (_ & _ & _ & R & _).
  exact (rootTagPattern_truthy _ R).
Qed.

Lemma filterNonRootTags_Some tags r :
  getRootTag tags = Some r ->
  filterNonRootTags tags = filter (fun t => negb (String.eqb t r)) tags.
Proof.
  intros H. unfold filterNonRootTags.
  rewrite H, (getRootTag_truthy _ _ H). reflexivity.
Qed.

Lemma filter_Subseq (A : Type) (f : A -> bool) (l : list A) :
  Subseq (filter f l) l.
Proof.
  induction l as [| x l IH]; simpl; [constructor |].
  destruct (f x); constructor; exact IH.
Qed.

Lemma filter_neq_count r t tags :
  t <> r ->
  count_occ string_dec (filter (fun x => negb (String.eqb x r)) tags) t
  = count_occ string_dec tags t.
Proof.
  intros N. induction tags as [| x tags IH]; simpl; [reflexivity |].
  destruct (String.eqb_spec x r) as [-> | Nx]; simpl.
  - destruct (string_dec r t) as [<- | _]; [contradiction | exact IH].
  - destruct (string_dec x t); rewrite IH; reflexivity.
Qed.

Lemma filter_neq_notin r tags :
  ~ In r tags -> filter (fun x => negb (String.eqb x r)) tags = tags.
Proof.
  induction tags as [| x tags IH]; simpl; intros N; [reflexivity |].
  destruct (String.eqb_spec x r) as [-> | _]; simpl.
  - exfalso. apply N. left. reflexivity.
  - rewrite IH; [reflexivity |]. intros H. apply N. right. exact H.
Qed.

Lemma filterVersionTags_nonempty tags :
  filterVersionTags tags <> [] ->
  exists t, In t tags /\ test versionTagPattern t = true.
Proof.
  unfold filterVersionTags. intros H.
  destruct (filter _ tags) as [| t l] eqn:E; [contradiction |].
  exists t. apply (filter_In (fun tag => test versionTagPattern tag)).
  rewrite E. left. reflexivity.
Qed.

Lemma getRootTag_of_version_tags tags :
  filterVersionTags tags <> [] -> truthy_opt (getRootTag tags) = true.
Proof.
  intros H. apply filterVersionTags_nonempty in H as (t & Ht & V).
  destruct (getRootTag tags) as [r |] eqn:R.
  - simpl. exact (getRootTag_truthy _ _ R).
  - rewrite getRootTag_None in R. specialize (R t Ht).
    rewrite (versionTagPattern_rootTagPattern _ V) in R. discriminate.
Qed.

End Classifier.

(** The example of the spec: [filterVersionTags] keeps the names with a
    minor component, in order. *)
Example filterVersionTags_example :
  filterVersionTags ["v1"; "v1.2"; "v1.2.3"; "release-1"; "v2"]
  = ["v1.2"; "v1.2.3"].
Proof. reflexivity. Qed.

(** C1 (defect of the code).  On the tag list [v1.2.3, v2] the code's
    [getRootTag] returns [v1.2.3], which is not a bare major-version tag,
    while the first bare major-version tag of the list is [v2]; on the list
    [v1.2.3] alone, which holds no bare major-version tag, it returns
    [v1.2.3] and not [undefined]. *)
Theorem getRootTag_takes_version_tag :
  getRootTag ["v1.2.3"; "v2"] = Some "v1.2.3" /\
  isBareMajorTag "v1.2.3" = false /\
  findRootTag_spec ["v1.2.3"; "v2"] = Some "v2" /\
  getRootTag ["v1.2.3"] = Some "v1.2.3" /\
  findRootTag_spec ["v1.2.3"] = None.
Proof. repeat split; reflexivity. Qed.

(** C7.  When [getRootTag] identifies a root tag, [filterNonRootTags] leaves
    out that name and nothing else: the root tag does not occur in the
    result, every other name occurs as often as in the input, and the result
    is the input in its order with elements left out; on a list of distinct
    names it is the input with the one occurrence of the root tag removed.
    When no name matches [^v\d+] the input is returned unchanged. *)
Theorem filterNonRootTags_excludes_root (tags : list string) :
  (forall rootTag, getRootTag tags = Some rootTag ->
     ~ In rootTag (filterNonRootTags tags) /\
     (forall t, t <> rootTag ->
        count_occ string_dec (filterNonRootTags tags) t
        = count_occ string_dec tags t) /\
     Subseq (filterNonRootTags tags) tags /\
     (NoDup tags ->
      exists l1 l2, tags = l1 ++ rootTag :: l2 /\
                    filterNonRootTags tags = l1 ++ l2)) /\
  ((forall t, In t tags -> test rootTagPattern t = false) ->
   filterNonRootTags tags = tags).
Proof.
  split.
  - intros r R. rewrite (filterNonRootTags_Some _ _ R). repeat split.
    + intros H. apply filter_In in H as [_ H].
      rewrite String.eqb_refl in H. discriminate.
    + intros t N. apply filter_neq_count. exact N.
    + apply filter_Subseq.
    + intros D. apply getRootTag_Some in R as (l1 & l2 & -> & _ & _).
      exists l1, l2. split; [reflexivity |].
      apply NoDup_remove_2 in D.
      rewrite filter_app. simpl. rewrite String.eqb_refl. simpl.
      rewrite !filter_neq_notin; [reflexivity | |];
        intros H; apply D; apply in_or_app; auto.
  - intros H. apply getRootTag_None in H.
    unfold filterNonRootTags. rewrite H. reflexivity.
Qed.

Lemma filterNonRootTags_excludes_root_witness :
  (exists l1 l2,
     ["latest"; "v1"; "v1.1.0"; "v2"] = l1 ++ "v1" :: l2 /\
     filterNonRootTags ["latest"; "v1"; "v1.1.0"; "v2"] = l1 ++ l2) /\
  filterNonRootTags ["latest"; "stable"] = ["latest"; "stable"].
Proof.
  split.
  - apply (proj1 (filterNonRootTags_excludes_root
                    ["latest"; "v1"; "v1.1.0"; "v2"]) "v1" eq_refl).
    repeat constructor; simpl; intuition discriminate.
  - apply (proj2 (filterNonRootTags_excludes_root ["latest"; "stable"])).
    intros t [<- | [<- | []]]; reflexivity.
Defined.

(* ===================================================================== *)
(** * Running the helpers *)
(* ===================================================================== *)

(** Case analysis on the innermost scrutinee of the goal. *)
Ltac case_scrutinee :=
  match goal with
  | |- context [match ?x with _ => _ end] =>
      lazymatch x with
      | context [match _ with _ => _ end] => fail
      | _ => destruct x eqn:?
      end
  end.

Ltac run_cbn :=
  cbn -[broken trim append shortenCommitHash String.eqb Nat.modulo
        lookup_ref delete_ref set_ref fetch_refs resolve_ref
        getRootTag filterNonRootTags filterVersionTags].

Ltac run_helper :=
  cbv beta delta [bind try_catch ret when gitop process_exit console_log
                    console_error console_error_obj];
  run_cbn;
  repeat (case_scrutinee; run_cbn);
  try reflexivity; try congruence.

Section Refs.

Implicit Types (refs : Refs) (name commit : string).

Lemma lookup_delete_same name refs :
  lookup_ref name (delete_ref name refs) = None.
Proof.
  unfold lookup_ref, delete_ref.
  induction refs as [| [n c] refs IH]; simpl; [reflexivity |].
  destruct (String.eqb_spec n name) as [-> | N]; simpl; [exact IH |].
  destruct (String.eqb_spec n name); [contradiction | exact IH].
Qed.

Lemma lookup_delete_other name other refs :
  other <> name ->
  lookup_ref other (delete_ref name refs) = lookup_ref other refs.
Proof.
  intros N. unfold lookup_ref, delete_ref.
  induction refs as [| [n c] refs IH]; simpl; [reflexivity |].
  destruct (String.eqb_spec n name) as [-> | Nn]; simpl.
  - destruct (String.eqb_spec name other); [congruence | exact IH].
  - destruct (String.eqb_spec n other); [reflexivity | exact IH].
Qed.

Lemma lookup_app name refs1 refs2 :
  lookup_ref name (refs1 ++ refs2) =
  match lookup_ref name refs1 with
  | Some c => Some c
  | None => lookup_ref name refs2
  end.
Proof.
  unfold lookup_ref.
  induction refs1 as [| [n c] refs1 IH]; simpl; [reflexivity |].
  destruct (String.eqb n name); [reflexivity | exact IH].
Qed.

Lemma lookup_single_same name commit :
  lookup_ref name [(name, commit)] = Some commit.
Proof. unfold lookup_ref. simpl. rewrite String.eqb_refl. reflexivity. Qed.

Lemma lookup_single_other name other commit :
  other <> name -> lookup_ref other [(name, commit)] = None.
Proof.
  intros N. unfold lookup_ref. simpl.
  destruct (String.eqb_spec name other); [congruence | reflexivity].
Qed.

Lemma lookup_set_same name commit refs :
  lookup_ref name (set_ref name commit refs) = Some commit.
Proof.
  unfold set_ref.
  rewrite lookup_app, lookup_delete_same. apply lookup_single_same.
Qed.

Lemma lookup_set_other name other commit refs :
  other <> name ->
  lookup_ref other (set_ref name commit refs) = lookup_ref other refs.
Proof.
  intros N. unfold set_ref.
  rewrite lookup_app, lookup_delete_other, lookup_single_other by exact N.
  destruct (lookup_ref other refs); reflexivity.
Qed.

(** Deleting a tag and creating it again at [commit]. *)
Lemma lookup_recreate_same name commit refs :
  lookup_ref name (delete_ref name refs ++ [(name, commit)]) = Some commit.
Proof. exact (lookup_set_same name commit refs). Qed.

Lemma lookup_recreate_other name other commit refs :
  other <> name ->
  lookup_ref other (delete_ref name refs ++ [(name, commit)])
  = lookup_ref other refs.
Proof. exact (lookup_set_other name other commit refs). Qed.

End Refs.

Section Helpers.

Variable w : World.

Lemma isGitRepo_run :
  isGitRepo w =
  if broken Status w
  then (Ok false, tick w,
        [EvGit Status false; EvLog StdOut Red "Not a Git repository."])
  else (Ok true, tick w, [EvGit Status true]).
Proof. unfold isGitRepo, git_status. run_helper. Qed.

Lemma getTags_run :
  getTags w =
  if broken FetchTags w
  then (Exit 1, tick w,
        [EvGit FetchTags false; EvLog StdErr Red "Error fetching tags."])
  else
    let w1 := set_local (fetch_refs (local_tags w) (remote_tags w)) (tick w) in
    if broken ListTags w1
    then (Exit 1, tick w1,
          [EvGit FetchTags true; EvGit ListTags false;
           EvLog StdErr Red "Error fetching tags."])
    else (Ok (map fst (local_tags w1)), tick w1,
          [EvGit FetchTags true; EvGit ListTags true]).
Proof. unfold getTags, git_fetch_tags, git_tags. run_helper. Qed.

Lemma getLatestCommitHash_run :
  getLatestCommitHash w =
  match (if broken (RevParse "HEAD") w then None else head_commit w) with
  | Some c => (Ok (trim (c ++ LF)), tick w, [EvGit (RevParse "HEAD") true])
  | None => (Exit 1, tick w,
             [EvGit (RevParse "HEAD") false;
              EvLog StdErr Red "Error retrieving latest commit hash."])
  end.
Proof.
  unfold getLatestCommitHash, git_rev_parse, gitop, bind, try_catch.
  cbv beta zeta.
  change (resolve_ref "HEAD" (tick w)) with (head_commit w).
  run_helper.
Qed.

Lemma getCommitOfTag_run tag :
  getCommitOfTag tag w =
  match (if broken (RevParse tag) w then None else resolve_ref tag w) with
  | Some c => (Ok (trim (c ++ LF)), tick w, [EvGit (RevParse tag) true])
  | None => (Exit 1, tick w,
             [EvGit (RevParse tag) false;
              EvLog StdErr Red "Error retrieving commit hash for tag."])
  end.
Proof.
  unfold getCommitOfTag, git_rev_parse, gitop, bind, try_catch.
  cbv beta zeta.
  change (resolve_ref tag (tick w)) with (resolve_ref tag w).
  run_helper.
Qed.

Lemma deleteLocalTag_run tag :
  deleteLocalTag tag w =
  match (if broken (TagDelete tag) w then None
         else lookup_ref tag (local_tags w)) with
  | Some _ =>
      (Ok tt, set_local (delete_ref tag (local_tags w)) (tick w),
       [EvGit (TagDelete tag) true;
        EvLog StdOut Green ("Local tag " ++ tag ++ " deleted.")])
  | None =>
      (Exit 1, tick w,
       [EvGit (TagDelete tag) false;
        EvLog StdErr Red "Error deleting local tag."])
  end.
Proof. unfold deleteLocalTag, git_tag_delete. run_helper. Qed.

Lemma forcePushTag_run tag :
  forcePushTag tag w =
  match (if broken (PushForce tag) w then None
         else lookup_ref tag (local_tags w)) with
  | Some c =>
      (Ok tt, set_remote (set_ref tag c (remote_tags w)) (tick w),
       [EvGit (PushForce tag) true;
        EvLog StdOut Green ("Tag " ++ tag ++ " force-pushed to GitHub.")])
  | None =>
      (Exit 1, tick w,
       [EvGit (PushForce tag) false;
        EvLog StdErr Red "Error force-pushing tag."])
  end.
Proof. unfold forcePushTag, git_push_force. run_helper. Qed.

End Helpers.

Ltac run_prog_cbn :=
  cbn -[broken trim append shortenCommitHash String.eqb Nat.modulo
        lookup_ref delete_ref set_ref fetch_refs resolve_ref
        getRootTag filterNonRootTags filterVersionTags
        isGitRepo getTags getLatestCommitHash getCommitOfTag
        deleteLocalTag forcePushTag updateTag updateRootTag].

Ltac unfold_monad :=
  cbv beta delta [bind try_catch ret when gitop process_exit console_log
                    console_error console_error_obj changes_push changes_init
                    get_changes select confirm git_tag_create].

Section Retarget.

Variables (tag commitHash : string) (w : World).

Lemma updateTag_run :
  updateTag tag commitHash w =
  retarget_tree
    ("Updating tag " ++ tag ++ " to point to commit "
       ++ shortenCommitHash commitHash)%string
    "Error updating tag."
    (fun old => ("Tag " ++ tag ++ " updated from " ++ shortenCommitHash old
                   ++ " to " ++ shortenCommitHash commitHash)%string)
    tag commitHash w.
Proof.
  unfold updateTag, retarget_tree. unfold_monad.
  rewrite getCommitOfTag_run.
  destruct (if broken (RevParse tag) w then None else resolve_ref tag w);
    [| reflexivity].
  rewrite deleteLocalTag_run. run_prog_cbn.
  destruct (if broken (TagDelete tag) _ then None else _); [| reflexivity].
  run_prog_cbn. destruct (broken (TagCreate tag commitHash) _); [reflexivity |].
  rewrite lookup_delete_same, forcePushTag_run. run_prog_cbn.
  destruct (broken (PushForce tag) _); [reflexivity |].
  rewrite lookup_recreate_same. reflexivity.
Qed.

Lemma updateRootTag_run :
  updateRootTag tag commitHash w =
  retarget_tree
    ("Updating root tag " ++ tag ++ " to point to commit "
       ++ shortenCommitHash commitHash)%string
    "Error updating root tag."
    (fun old => ("Root tag " ++ tag ++ " updated from "
                   ++ shortenCommitHash old
                   ++ " to " ++ shortenCommitHash commitHash)%string)
    tag commitHash w.
Proof.
  unfold updateRootTag, retarget_tree. unfold_monad.
  rewrite getCommitOfTag_run.
  destruct (if broken (RevParse tag) w then None else resolve_ref tag w);
    [| reflexivity].
  rewrite deleteLocalTag_run. run_prog_cbn.
  destruct (if broken (TagDelete tag) _ then None else _); [| reflexivity].
  run_prog_cbn. destruct (broken (TagCreate tag commitHash) _); [reflexivity |].
  rewrite lookup_delete_same, forcePushTag_run. run_prog_cbn.
  destruct (broken (PushForce tag) _); [reflexivity |].
  rewrite lookup_recreate_same. reflexivity.
Qed.

End Retarget.

(* ===================================================================== *)
(** * Running [main] *)
(* ===================================================================== *)

Section WP.

Lemma wp_start A (m : M A) w (Q : _ -> Prop) : wp m w [] Q -> Q (m w).
Proof. unfold wp. destruct (m w) as [[o w'] t]. auto. Qed.

Lemma wp_bind A B (m : M A) (k : A -> M B) w t0 Q :
  wp m w t0 (fun r => match r with
                      | (Ok a, w1, t1) => wp (k a) w1 t1 Q
                      | (Throw e, w1, t1) => Q (Throw e, w1, t1)
                      | (Exit n, w1, t1) => Q (Exit n, w1, t1)
                      end) ->
  wp (bind m k) w t0 Q.
Proof.
  unfold wp, bind. destruct (m w) as [[[a | e | n] w1] t1]; auto.
  destruct (k a w1) as [[o w2] t2]. rewrite app_assoc. auto.
Qed.

Lemma wp_try_catch A (m : M A) (h : Error -> M A) w t0 Q :
  wp m w t0 (fun r => match r with
                      | (Throw e, w1, t1) => wp (h e) w1 t1 Q
                      | (Ok a, w1, t1) => Q (Ok a, w1, t1)
                      | (Exit n, w1, t1) => Q (Exit n, w1, t1)
                      end) ->
  wp (try_catch m h) w t0 Q.
Proof.
  unfold wp, try_catch. destruct (m w) as [[[a | e | n] w1] t1]; auto.
  destruct (h e w1) as [[o w2] t2]. rewrite app_assoc. auto.
Qed.

Lemma nth_mod_In (A : Type) (l : list A) (d : A) (i : nat) :
  l <> [] -> In (nth (i mod length l) l d) l.
Proof.
  intros N. apply nth_In. apply Nat.mod_upper_bound.
  destruct l; [contradiction | discriminate].
Qed.

Lemma wp_select message choices w t0 (Q : _ -> Prop) :
  (selects w = [] ->
   Q (Throw ExitPromptError, w,
      t0 ++ [EvSelect message (map fst choices) Aborted])) ->
  (forall rest, selects w = Aborted :: rest ->
   Q (Throw ExitPromptError, set_selects rest w,
      t0 ++ [EvSelect message (map fst choices) Aborted])) ->
  (forall e rest, selects w = Crashed e :: rest ->
   Q (Throw (PromptFailure e), set_selects rest w,
      t0 ++ [EvSelect message (map fst choices) (Crashed e)])) ->
  (forall i rest, selects w = Answered i :: rest -> choices = [] ->
   Q (Throw (PromptFailure "ValidationError"), set_selects rest w,
      t0 ++ [EvSelect message (map fst choices)
               (Crashed "ValidationError")])) ->
  (forall i rest v, selects w = Answered i :: rest ->
   v = snd (nth (i mod length choices) choices (EmptyString, EmptyString)) ->
   In v (map snd choices) ->
   Q (Ok v, set_selects rest w,
      t0 ++ [EvSelect message (map fst choices) (Answered v)])) ->
  wp (select message choices) w t0 Q.
Proof.
  intros H0 Ha Hc He Hv. unfold wp, select.
  destruct (selects w) as [| [i | | e] rest]; auto.
  destruct choices as [| c cs].
  - apply (He i rest); reflexivity.
  - apply (Hv i rest); auto. apply in_map, nth_mod_In. discriminate.
Qed.

Lemma wp_confirm message w t0 (Q : _ -> Prop) :
  (confirms w = [] ->
   Q (Throw ExitPromptError, w, t0 ++ [EvConfirm message Aborted])) ->
  (forall rest, confirms w = Aborted :: rest ->
   Q (Throw ExitPromptError, set_confirms rest w,
      t0 ++ [EvConfirm message Aborted])) ->
  (forall e rest, confirms w = Crashed e :: rest ->
   Q (Throw (PromptFailure e), set_confirms rest w,
      t0 ++ [EvConfirm message (Crashed e)])) ->
  (forall b rest, confirms w = Answered b :: rest ->
   Q (Ok b, set_confirms rest w, t0 ++ [EvConfirm message (Answered b)])) ->
  wp (confirm message) w t0 Q.
Proof.
  intros H0 Ha Hc Hv. unfold wp, confirm.
  destruct (confirms w) as [| [b | | e] rest]; auto.
Qed.

End WP.

(** The scrutinee at the head of the goal. *)
Ltac head_scrutinee t :=
  lazymatch t with
  | match ?x with _ => _ end => head_scrutinee x
  | _ => t
  end.

Ltac case_head :=
  lazymatch goal with
  | |- match ?x with _ => _ end =>
      let y := head_scrutinee x in destruct y eqn:?
  end.

Ltac wp_cases := repeat (cbv beta iota zeta; case_head); cbv beta iota zeta.

Ltac wp_unfold_head :=
  unfold wp at 1;
  cbv beta iota zeta
      delta [ret process_exit console_log console_error console_error_obj
               changes_push changes_init get_changes].

(** Case analysis on a condition; a condition that computes takes its branch. *)
Ltac case_condition b :=
  let H := fresh "Hcond" in
  destruct b eqn:H;
  try (exfalso; clear - H; cbn in H; discriminate H).

(** One step of the run of [main]; [prune] closes the cases that the
    hypotheses at hand exclude. *)
Ltac wp_step prune :=
  lazymatch goal with
  | |- wp (bind _ _) _ _ _ => apply wp_bind
  | |- wp (try_catch _ _) _ _ _ => apply wp_try_catch
  | |- wp (when ?b _) _ _ _ => unfold when at 1; case_condition b
  | |- wp (if ?b then _ else _) _ _ _ => case_condition b
  | |- wp (match ?o with _ => _ end) _ _ _ => destruct o eqn:?
  | |- wp (select _ _) _ _ _ => apply wp_select; intros; cbv beta iota
  | |- wp (confirm _) _ _ _ => apply wp_confirm; intros; cbv beta iota
  | |- wp isGitRepo _ _ _ => unfold wp at 1; rewrite isGitRepo_run; wp_cases
  | |- wp getTags _ _ _ => unfold wp at 1; rewrite getTags_run; wp_cases
  | |- wp getLatestCommitHash _ _ _ =>
      unfold wp at 1; rewrite getLatestCommitHash_run; wp_cases
  | |- wp (getCommitOfTag _) _ _ _ =>
      unfold wp at 1; rewrite getCommitOfTag_run; wp_cases
  | |- wp (updateTag _ _) _ _ _ =>
      unfold wp at 1; rewrite updateTag_run; unfold retarget_tree; wp_cases
  | |- wp (updateRootTag _ _) _ _ _ =>
      unfold wp at 1; rewrite updateRootTag_run; unfold retarget_tree; wp_cases
  | |- wp main_update _ _ _ => unfold main_update
  | |- wp main_bump _ _ _ => unfold main_bump
  | |- wp main_summary _ _ _ => unfold main_summary
  | |- wp (main_catch _) _ _ _ => unfold main_catch
  | |- wp (forEach _ _) _ _ _ => cbn [forEach]
  | |- wp _ _ _ _ => wp_unfold_head
  end;
  try (exfalso; prune).

Ltac wp_run prune := apply wp_start; repeat wp_step prune.

(* ===================================================================== *)
(** * The retarget operation *)
(* ===================================================================== *)

Lemma broken_healthy c w :
  repo w = true -> (forall n c', faulty w n c' = false) -> broken c w = false.
Proof. intros R F. unfold broken. rewrite R, F. reflexivity. Qed.

Lemma healthy_broken c w : healthy w -> broken c w = false.
Proof. intros [R F]. apply broken_healthy; assumption. Qed.

Section RetargetTree.

Variables (starting failed : string) (done : string -> string).
Variables (tag commitHash : string) (w : World).

Let r := retarget_tree starting failed done tag commitHash w.

Lemma retarget_tree_order :
  exists n, map fst (git_calls (trace_of r))
            = firstn n (retarget_calls tag commitHash).
Proof.
  unfold r, retarget_tree.
  destruct (if broken (RevParse tag) w then None else resolve_ref tag w);
    [| exists 1; reflexivity].
  cbv zeta.
  destruct (if broken (TagDelete tag) _ then None else _);
    [| exists 2; reflexivity].
  destruct (broken (TagCreate tag commitHash) _); [exists 3; reflexivity |].
  destruct (broken (PushForce tag) _); exists 4; reflexivity.
Qed.

Lemma retarget_tree_returns rec :
  outcome_of r = Ok rec ->
  exists c0,
    resolve_ref tag w = Some c0 /\
    rec = mkChange tag (trim (c0 ++ LF)) commitHash /\
    git_calls (trace_of r)
    = map (fun c => (c, true)) (retarget_calls tag commitHash) /\
    lookup_ref tag (local_tags (world_of r)) = Some commitHash /\
    lookup_ref tag (remote_tags (world_of r)) = Some commitHash.
Proof.
  unfold r, retarget_tree.
  destruct (broken (RevParse tag) w); [discriminate |].
  destruct (resolve_ref tag w) as [c0 |]; [| discriminate].
  cbv zeta.
  destruct (if broken (TagDelete tag) _ then None else _); [| discriminate].
  destruct (broken (TagCreate tag commitHash) _); [discriminate |].
  destruct (broken (PushForce tag) _); [discriminate |].
  intros [= <-]. exists c0. repeat split.
  - apply lookup_recreate_same.
  - apply lookup_set_same.
Qed.

Lemma retarget_tree_healthy c0 :
  healthy w -> resolve_ref tag w = Some c0 ->
  lookup_ref tag (local_tags w) <> None ->
  outcome_of r = Ok (mkChange tag (trim (c0 ++ LF)) commitHash).
Proof.
  intros H E L. unfold r, retarget_tree.
  rewrite (healthy_broken _ _ H), E. cbv zeta.
  rewrite !healthy_broken by exact H.
  destruct (lookup_ref tag (local_tags w)); [reflexivity | contradiction].
Qed.

End RetargetTree.

Lemma retarget_tree_contract (f : string -> string -> M ChangeRecord)
    (starting failed : string -> string -> string)
    (done : string -> string -> string -> string) :
  (forall tag commitHash w,
     f tag commitHash w
     = retarget_tree (starting tag commitHash) (failed tag commitHash)
         (done tag commitHash) tag commitHash w) ->
  retarget_contract f.
Proof.
  intros E tag commitHash w. rewrite E. cbv zeta. repeat split.
  - apply retarget_tree_order.
  - apply retarget_tree_returns.
  - intros H R L. destruct (resolve_ref tag w) as [c0 |] eqn:E0; [| contradiction].
    eexists. eapply retarget_tree_healthy; eauto.
Qed.

(** C5.  [updateTag] and [updateRootTag] resolve the current commit of the
    tag first, then delete the local tag, create it at the destination and
    force-push it, in that order; a run that returns has made the four calls
    with success and returns [{ tag, oldCommitHash, newCommitHash }] with the
    commit resolved before the update and the destination commit; in a
    healthy world the run of an existing tag returns. *)
Theorem retarget_resolves_then_mutates :
  retarget_contract updateTag /\ retarget_contract updateRootTag.
Proof.
  split.
  - apply (retarget_tree_contract updateTag
             (fun tag commitHash =>
                ("Updating tag " ++ tag ++ " to point to commit "
                   ++ shortenCommitHash commitHash)%string)
             (fun _ _ => "Error updating tag."%string)
             (fun tag commitHash old =>
                ("Tag " ++ tag ++ " updated from " ++ shortenCommitHash old
                   ++ " to " ++ shortenCommitHash commitHash)%string)).
    intros. apply updateTag_run.
  - apply (retarget_tree_contract updateRootTag
             (fun tag commitHash =>
                ("Updating root tag " ++ tag ++ " to point to commit "
                   ++ shortenCommitHash commitHash)%string)
             (fun _ _ => "Error updating root tag."%string)
             (fun tag commitHash old =>
                ("Root tag " ++ tag ++ " updated from "
                   ++ shortenCommitHash old
                   ++ " to " ++ shortenCommitHash commitHash)%string)).
    intros. apply updateRootTag_run.
Qed.

Lemma retarget_resolves_then_mutates_witness :
  exists rec, outcome_of (updateTag "v1.2" "dddddddddddd" example_world) = Ok rec.
Proof.
  apply (proj1 retarget_resolves_then_mutates "v1.2" "dddddddddddd" example_world).
  - split; [reflexivity | intros; reflexivity].
  - vm_compute. discriminate.
  - vm_compute. discriminate.
Defined.

(** C8.  Retargeting a tag to the commit it already resolves to makes the
    same four gateway calls as any retarget, all of them, and returns a
    Change Record whose [oldCommitHash] equals its [newCommitHash]. *)
Theorem retarget_to_same_commit (tag c0 : string) (w : World) :
  healthy w ->
  resolve_ref tag w = Some c0 ->
  lookup_ref tag (local_tags w) <> None ->
  let commitHash := trim (c0 ++ LF) in
  let r := updateTag tag commitHash w in
  outcome_of r = Ok (mkChange tag commitHash commitHash) /\
  git_calls (trace_of r)
  = [(RevParse tag, true); (TagDelete tag, true);
     (TagCreate tag commitHash, true); (PushForce tag, true)] /\
  lookup_ref tag (local_tags (world_of r)) = Some commitHash /\
  lookup_ref tag (remote_tags (world_of r)) = Some commitHash.
Proof.
  intros H E L commitHash r. unfold r. rewrite updateTag_run.
  match goal with |- context [retarget_tree ?s ?f ?d tag commitHash w] =>
    pose proof (retarget_tree_healthy s f d tag commitHash w c0 H E L) as O
  end.
  split; [exact O |].
  destruct (retarget_tree_returns _ _ _ _ _ _ _ O) as (c1 & _ & _ & G & Hl & Hr).
  repeat split; assumption.
Qed.

Lemma retarget_to_same_commit_witness :
  outcome_of (updateTag "v1.2" "cccccccccccc" example_world)
  = Ok (mkChange "v1.2" "cccccccccccc" "cccccccccccc").
Proof.
  apply (retarget_to_same_commit "v1.2" "cccccccccccc" example_world).
  - split; [reflexivity | intros; reflexivity].
  - reflexivity.
  - vm_compute. discriminate.
Defined.

(* ===================================================================== *)
(** * Runs in which nothing fails *)
(* ===================================================================== *)

Section Healthy.

Lemma wp_isGitRepo_ok w t0 (Q : _ -> Prop) :
  healthy w ->
  Q (Ok true, tick w, (t0 ++ [EvGit Status true])) ->
  wp isGitRepo w t0 Q.
Proof.
  intros H HQ. unfold wp. rewrite isGitRepo_run, (healthy_broken _ _ H). exact HQ.
Qed.

Lemma wp_getTags_ok w t0 (Q : _ -> Prop) :
  healthy w ->
  Q (Ok (map fst (fetch_refs (local_tags w) (remote_tags w))),
     tick (set_local (fetch_refs (local_tags w) (remote_tags w)) (tick w)),
     (t0 ++ [EvGit FetchTags true; EvGit ListTags true])) ->
  wp getTags w t0 Q.
Proof.
  intros H HQ. unfold wp. rewrite getTags_run, (healthy_broken _ _ H). cbv zeta.
  rewrite healthy_broken by exact H. exact HQ.
Qed.

Lemma wp_getLatestCommitHash_ok w t0 c (Q : _ -> Prop) :
  healthy w -> head_commit w = Some c ->
  Q (Ok (trim (c ++ LF)), tick w, (t0 ++ [EvGit (RevParse "HEAD") true])) ->
  wp getLatestCommitHash w t0 Q.
Proof.
  intros H E HQ. unfold wp.
  rewrite getLatestCommitHash_run, (healthy_broken _ _ H), E. exact HQ.
Qed.

Lemma wp_getCommitOfTag_ok tag w t0 c (Q : _ -> Prop) :
  healthy w -> resolve_ref tag w = Some c ->
  Q (Ok (trim (c ++ LF)), tick w, (t0 ++ [EvGit (RevParse tag) true])) ->
  wp (getCommitOfTag tag) w t0 Q.
Proof.
  intros H E HQ. unfold wp.
  rewrite getCommitOfTag_run, (healthy_broken _ _ H), E. exact HQ.
Qed.

Lemma nth_error_tagChoices tags i tag :
  nth_error tags i = Some tag ->
  snd (nth (i mod length (tagChoices tags)) (tagChoices tags) (EmptyString, EmptyString)) = tag.
Proof.
  intros H. unfold tagChoices. rewrite length_map.
  assert (L : i < length tags) by (apply nth_error_Some; congruence).
  rewrite Nat.mod_small by exact L.
  change (EmptyString, EmptyString) with ((fun t : string => (t, t)) EmptyString).
  rewrite map_nth. simpl. apply nth_error_nth. exact H.
Qed.

Lemma wp_select_ok message choices w t0 i rest (Q : _ -> Prop) :
  selects w = Answered i :: rest ->
  choices <> [] ->
  Q (Ok (snd (nth (i mod length choices) choices (EmptyString, EmptyString))),
     set_selects rest w,
     (t0 ++ [EvSelect message (map fst choices)
              (Answered (snd (nth (i mod length choices) choices (EmptyString, EmptyString))))])) ->
  wp (select message choices) w t0 Q.
Proof.
  intros E N HQ. unfold wp, select. rewrite E.
  destruct choices; [contradiction | exact HQ].
Qed.

Lemma wp_confirm_ok message w t0 b rest (Q : _ -> Prop) :
  confirms w = Answered b :: rest ->
  Q (Ok b, set_confirms rest w, (t0 ++ [EvConfirm message (Answered b)])) ->
  wp (confirm message) w t0 Q.
Proof. intros E HQ. unfold wp, confirm. rewrite E. exact HQ. Qed.

Lemma confirm_prompts_app t1 t2 :
  confirm_prompts (t1 ++ t2) = confirm_prompts t1 ++ confirm_prompts t2.
Proof.
  induction t1 as [| [] t1 IH]; simpl; try exact IH; [reflexivity |].
  rewrite IH. reflexivity.
Qed.

Lemma wp_retarget_tree_ok starting failed done tag commitHash w t0 c0
    (f : M ChangeRecord) (Q : _ -> Prop) :
  f w = retarget_tree starting failed done tag commitHash w ->
  healthy w -> resolve_ref tag w = Some c0 ->
  lookup_ref tag (local_tags w) <> None ->
  (forall t,
     git_calls t = map (fun c => (c, true)) (retarget_calls tag commitHash) ->
     confirm_prompts t = [] ->
     Q (Ok (mkChange tag (trim (c0 ++ LF)) commitHash),
        retargeted tag commitHash w, t0 ++ t)) ->
  wp f w t0 Q.
Proof.
  intros E H R L HQ. unfold wp. rewrite E. unfold retarget_tree.
  rewrite (healthy_broken _ _ H), R. cbv zeta.
  rewrite !healthy_broken by exact H.
  destruct (lookup_ref tag (local_tags w)); [| contradiction].
  apply HQ; reflexivity.
Qed.

Lemma nth_error_nonempty (A : Type) (l : list A) i x :
  nth_error l i = Some x -> Nat.eqb (length l) 0 = false.
Proof. destruct l; [destruct i; discriminate | reflexivity]. Qed.

Lemma truthy_nonempty s : s <> EmptyString -> truthy s = true.
Proof. destruct s; [contradiction | reflexivity]. Qed.

Lemma rootTag_not_HEAD tags r :
  getRootTag tags = Some r -> String.eqb r "HEAD" = false.
Proof.
  intros H. apply getRootTag_Some in H as (_ & _ & _ & R & _).
  apply test_rootTagPattern in R as (d & rest & -> & _). reflexivity.
Qed.

Lemma resolve_ref_tag name w :
  String.eqb name "HEAD" = false ->
  resolve_ref name w = lookup_ref name (local_tags w).
Proof. intros H. unfold resolve_ref. rewrite H. reflexivity. Qed.

Lemma map_snd_tagChoices tags : map snd (tagChoices tags) = tags.
Proof. unfold tagChoices. rewrite map_map. simpl. apply map_id. Qed.

Lemma tagChoices_nonempty tags i tag :
  nth_error tags i = Some tag -> tagChoices tags <> [].
Proof. destruct tags; [destruct i; discriminate | discriminate]. Qed.

Lemma selected_not_root tags v r :
  getRootTag tags = Some r ->
  In v (map snd (tagChoices (filterNonRootTags tags))) -> v <> r.
Proof.
  intros R H. rewrite map_snd_tagChoices, (filterNonRootTags_Some _ _ R) in H.
  apply filter_In in H as [_ H]. intros ->.
  rewrite String.eqb_refl in H. discriminate.
Qed.

End Healthy.

(** Worlds in normal form. *)
Ltac world_cbn :=
  cbn [repo head_commit faulty local_tags remote_tags calls selects confirms
       changes tick set_local set_remote set_selects set_confirms set_changes
       retargeted outcome_of world_of trace_of fst snd].

(** A condition that computes is replaced by its value. *)
Ltac decide_condition b :=
  let b' := eval cbn in b in
  lazymatch b' with
  | true => change b with true
  | false => change b with false
  end.

(** One step of a run in which nothing fails; [side] proves the side
    conditions. *)
Ltac wp_ok_step side :=
  lazymatch goal with
  | |- wp (bind _ _) _ _ _ => apply wp_bind
  | |- wp (try_catch _ _) _ _ _ => apply wp_try_catch
  | |- wp (when true _) _ _ _ => unfold when at 1; cbv iota
  | |- wp (when false _) _ _ _ => unfold when at 1; cbv iota
  | |- wp (when ?b _) _ _ _ => decide_condition b
  | |- wp (if true then _ else _) _ _ _ => cbv iota
  | |- wp (if false then _ else _) _ _ _ => cbv iota
  | |- wp (if ?b then _ else _) _ _ _ => decide_condition b
  | |- wp (match Some _ with Some _ => _ | None => _ end) _ _ _ => cbv beta iota
  | |- wp isGitRepo _ _ _ => apply wp_isGitRepo_ok; [side |]; cbv beta iota
  | |- wp getTags _ _ _ => apply wp_getTags_ok; [side |]; cbv beta iota zeta
  | |- wp getLatestCommitHash _ _ _ =>
      eapply wp_getLatestCommitHash_ok; [side | side |]; cbv beta iota zeta
  | |- wp (getCommitOfTag _) _ _ _ =>
      eapply wp_getCommitOfTag_ok; [side | side |]; cbv beta iota zeta
  | |- wp (select _ _) _ _ _ =>
      eapply wp_select_ok; [side | side |]; cbv beta iota zeta
  | |- wp (confirm _) _ _ _ =>
      eapply wp_confirm_ok; [side |]; cbv beta iota zeta
  | |- wp (updateTag _ _) _ _ _ =>
      eapply wp_retarget_tree_ok;
      [apply updateTag_run | side | side | side | intros; cbv beta iota zeta]
  | |- wp (updateRootTag _ _) _ _ _ =>
      eapply wp_retarget_tree_ok;
      [apply updateRootTag_run | side | side | side | intros; cbv beta iota zeta]
  | |- wp main_update _ _ _ => unfold main_update
  | |- wp main_bump _ _ _ => unfold main_bump
  | |- wp main_summary _ _ _ => unfold main_summary
  | |- wp (main_catch _) _ _ _ => unfold main_catch
  | |- wp (forEach _ _) _ _ _ => world_cbn; cbn [app forEach]
  | |- wp (fun _ => _) _ _ _ => wp_unfold_head
  | |- wp (ret _) _ _ _ => wp_unfold_head
  | |- wp (process_exit _) _ _ _ => wp_unfold_head
  | |- wp (console_log _ _) _ _ _ => wp_unfold_head
  | |- wp (console_error _ _) _ _ _ => wp_unfold_head
  | |- wp (console_error_obj _) _ _ _ => wp_unfold_head
  | |- wp (changes_push _) _ _ _ => wp_unfold_head
  | |- wp changes_init _ _ _ => wp_unfold_head
  | |- wp get_changes _ _ _ => wp_unfold_head
  end.

Ltac wp_ok side := repeat wp_ok_step side.

Lemma git_calls_app t1 t2 : git_calls (t1 ++ t2) = git_calls t1 ++ git_calls t2.
Proof.
  induction t1 as [| [] t1 IH]; simpl; try exact IH; [reflexivity |].
  rewrite IH. reflexivity.
Qed.

(* ===================================================================== *)
(** * The update workflow *)
(* ===================================================================== *)

(** C3.  In a healthy world, when the user chooses the update workflow,
    picks [selectedTag] and confirms twice, and the root tag resolves to the
    commit [selectedTag] resolves to, the run completes: the cascade prompt
    is offered after the update prompt, [selectedTag] and then the root tag
    are retargeted to the commit [D] of HEAD, the root tag points at [D]
    locally and on the remote, and exactly two Change Records are
    accumulated, both with [newCommitHash] equal to [D]. *)
Theorem cascade_retargets_root_tag
    (w : World) (i : nat) (srest : list (Reply nat)) (crest : list (Reply bool))
    (rootTag selectedTag Cr Cs H : string) :
  healthy w ->
  selects w = Answered 0 :: Answered i :: srest ->
  confirms w = Answered true :: Answered true :: crest ->
  let refs := fetch_refs (local_tags w) (remote_tags w) in
  let tags := map fst refs in
  getRootTag tags = Some rootTag ->
  nth_error (filterNonRootTags tags) i = Some selectedTag ->
  selectedTag <> EmptyString -> selectedTag <> "HEAD" ->
  lookup_ref rootTag refs = Some Cr ->
  lookup_ref selectedTag refs = Some Cs ->
  trim (Cr ++ LF) = trim (Cs ++ LF) ->
  head_commit w = Some H ->
  let D := trim (H ++ LF) in
  let r := main w in
  outcome_of r = Ok tt /\
  confirm_prompts (trace_of r)
  = [("Do you want to update tag " ++ selectedTag
        ++ " to point to the latest commit (" ++ shortenCommitHash D ++ ")?")%string;
     ("Do you also want to update the root tag to point to the updated "
        ++ selectedTag ++ " (" ++ shortenCommitHash D ++ ")?")%string] /\
  git_calls (trace_of r)
  = map (fun c => (c, true))
      ([Status; FetchTags; ListTags; RevParse "HEAD";
        RevParse rootTag; RevParse selectedTag]
         ++ retarget_calls selectedTag D ++ retarget_calls rootTag D) /\
  lookup_ref selectedTag (local_tags (world_of r)) = Some D /\
  lookup_ref rootTag (local_tags (world_of r)) = Some D /\
  lookup_ref rootTag (remote_tags (world_of r)) = Some D /\
  changes (world_of r)
  = [mkChange selectedTag (trim (Cs ++ LF)) D;
     mkChange rootTag (trim (Cr ++ LF)) D].
Proof.
  intros Hh Hsel Hconf refs tags Hroot Hnth Hne Hhead Hr Hs Hsame HH D r.
  assert (Hsr : selectedTag <> rootTag).
  { apply (selected_not_root tags); [exact Hroot |].
    rewrite map_snd_tagChoices. eapply nth_error_In. exact Hnth. }
  assert (Hrs : rootTag <> selectedTag) by congruence.
  assert (HselH : String.eqb selectedTag "HEAD" = false)
    by (apply String.eqb_neq; exact Hhead).
  pose proof (rootTag_not_HEAD _ _ Hroot) as HrootH.
  assert (Hs' : lookup_ref selectedTag refs <> None) by congruence.
  assert (Hr' : lookup_ref rootTag
                  (delete_ref selectedTag refs ++ [(selectedTag, D)]) = Some Cr)
    by (rewrite (lookup_recreate_other _ _ _ _ Hrs); exact Hr).
  assert (Hr'' : lookup_ref rootTag
                   (delete_ref selectedTag refs ++ [(selectedTag, D)]) <> None)
    by congruence.
  subst r. pattern (main w). apply wp_start. unfold main.
  wp_ok ltac:(first [exact Hh | exact Hsel | discriminate]).
  change (map fst (fetch_refs _ _)) with tags.
  rewrite (nth_error_nonempty _ _ _ _ Hnth).
  wp_ok ltac:(first [exact Hh | reflexivity
                    | exact (tagChoices_nonempty _ _ _ Hnth)]).
  rewrite (nth_error_tagChoices _ _ _ Hnth), (truthy_nonempty _ Hne).
  wp_ok ltac:(first [exact Hh | exact HH | exact Hconf]).
  rewrite Hroot. cbv beta iota. rewrite (getRootTag_truthy _ _ Hroot).
  wp_ok ltac:(first
    [ exact Hh
    | rewrite (resolve_ref_tag _ _ HrootH); exact Hr
    | rewrite (resolve_ref_tag _ _ HselH); exact Hs ]).
  rewrite Hsame, String.eqb_refl.
  wp_ok ltac:(first
    [ exact Hh | reflexivity
    | rewrite (resolve_ref_tag _ _ HselH); exact Hs
    | exact Hs'
    | rewrite (resolve_ref_tag _ _ HrootH); exact Hr'
    | exact Hr'' ]).
  rewrite ?app_nil_r.
  cbn [app confirm_prompts git_calls tag oldCommitHash newCommitHash].
  rewrite !confirm_prompts_app, !git_calls_app.
  repeat match goal with
         | Hg : git_calls _ = _ |- _ => rewrite Hg; clear Hg
         | Hc : confirm_prompts _ = _ |- _ => rewrite Hc; clear Hc
         end.
  cbn [confirm_prompts git_calls app map retarget_calls].
  world_cbn. repeat split.
  - fold refs. rewrite (lookup_recreate_other _ _ _ _ Hsr).
    apply lookup_recreate_same.
  - apply lookup_recreate_same.
  - apply lookup_set_same.
  - rewrite Hsame. reflexivity.
Qed.

Lemma cascade_retargets_root_tag_witness :
  changes (world_of (main example_world))
  = [mkChange "v1.2" "cccccccccccc" "dddddddddddd";
     mkChange "v1" "cccccccccccc" "dddddddddddd"].
Proof.
  apply (cascade_retargets_root_tag example_world 0 [] [] "v1" "v1.2"
           "cccccccccccc" "cccccccccccc" "dddddddddddd").
  - split; [reflexivity | intros; reflexivity].
  - reflexivity.
  - reflexivity.
  - reflexivity.
  - reflexivity.
  - discriminate.
  - discriminate.
  - reflexivity.
  - reflexivity.
  - reflexivity.
  - reflexivity.
Defined.

(** C6.  In a healthy world, when the user chooses the update workflow,
    picks [selectedTag] and confirms, and the root tag resolves to a commit
    other than the one [selectedTag] resolves to, only [selectedTag] is
    retargeted: the update prompt is the only confirm prompt of the run (no
    cascade prompt, no further reply consumed), exactly one Change Record is
    produced, no gateway call but a rev-parse names the root tag, and the
    root tag points where it did, locally and on the remote. *)
Theorem no_cascade_when_root_is_elsewhere
    (w : World) (i : nat) (srest : list (Reply nat)) (crest : list (Reply bool))
    (rootTag selectedTag Cr Cs H : string) :
  healthy w ->
  selects w = Answered 0 :: Answered i :: srest ->
  confirms w = Answered true :: crest ->
  let refs := fetch_refs (local_tags w) (remote_tags w) in
  let tags := map fst refs in
  getRootTag tags = Some rootTag ->
  nth_error (filterNonRootTags tags) i = Some selectedTag ->
  selectedTag <> EmptyString -> selectedTag <> "HEAD" ->
  lookup_ref rootTag refs = Some Cr ->
  lookup_ref selectedTag refs = Some Cs ->
  trim (Cr ++ LF) <> trim (Cs ++ LF) ->
  head_commit w = Some H ->
  let D := trim (H ++ LF) in
  let r := main w in
  outcome_of r = Ok tt /\
  confirm_prompts (trace_of r)
  = [("Do you want to update tag " ++ selectedTag
        ++ " to point to the latest commit (" ++ shortenCommitHash D ++ ")?")%string] /\
  confirms (world_of r) = crest /\
  changes (world_of r) = [mkChange selectedTag (trim (Cs ++ LF)) D] /\
  git_calls (trace_of r)
  = map (fun c => (c, true))
      ([Status; FetchTags; ListTags; RevParse "HEAD";
        RevParse rootTag; RevParse selectedTag]
         ++ retarget_calls selectedTag D) /\
  lookup_ref selectedTag (local_tags (world_of r)) = Some D /\
  lookup_ref rootTag (local_tags (world_of r)) = Some Cr /\
  lookup_ref rootTag (remote_tags (world_of r))
  = lookup_ref rootTag (remote_tags w).
Proof.
  intros Hh Hsel Hconf refs tags Hroot Hnth Hne Hhead Hr Hs Hdiff HH D r.
  assert (Hsr : selectedTag <> rootTag).
  { apply (selected_not_root tags); [exact Hroot |].
    rewrite map_snd_tagChoices. eapply nth_error_In. exact Hnth. }
  assert (Hrs : rootTag <> selectedTag) by congruence.
  assert (HselH : String.eqb selectedTag "HEAD" = false)
    by (apply String.eqb_neq; exact Hhead).
  pose proof (rootTag_not_HEAD _ _ Hroot) as HrootH.
  assert (Hs' : lookup_ref selectedTag refs <> None) by congruence.
  apply String.eqb_neq in Hdiff.
  subst r. pattern (main w). apply wp_start. unfold main.
  wp_ok ltac:(first [exact Hh | exact Hsel | discriminate]).
  change (map fst (fetch_refs _ _)) with tags.
  rewrite (nth_error_nonempty _ _ _ _ Hnth).
  wp_ok ltac:(first [exact Hh | reflexivity
                    | exact (tagChoices_nonempty _ _ _ Hnth)]).
  rewrite (nth_error_tagChoices _ _ _ Hnth), (truthy_nonempty _ Hne).
  wp_ok ltac:(first [exact Hh | exact HH | exact Hconf]).
  rewrite Hroot. cbv beta iota. rewrite (getRootTag_truthy _ _ Hroot).
  wp_ok ltac:(first
    [ exact Hh
    | rewrite (resolve_ref_tag _ _ HrootH); exact Hr
    | rewrite (resolve_ref_tag _ _ HselH); exact Hs ]).
  rewrite Hdiff.
  wp_ok ltac:(first
    [ exact Hh | reflexivity
    | rewrite (resolve_ref_tag _ _ HselH); exact Hs
    | exact Hs' ]).
  rewrite ?app_nil_r.
  cbn [app confirm_prompts git_calls tag oldCommitHash newCommitHash].
  rewrite !confirm_prompts_app, !git_calls_app.
  match goal with Hg : git_calls _ = _, Hc : confirm_prompts _ = _ |- _ =>
    rewrite Hg, Hc end.
  cbn [confirm_prompts git_calls app map retarget_calls].
  world_cbn. repeat split.
  - apply lookup_recreate_same.
  - fold refs. rewrite (lookup_recreate_other _ _ _ _ Hrs). exact Hr.
  - apply lookup_set_other. exact Hrs.
Qed.

Lemma no_cascade_when_root_is_elsewhere_witness :
  changes (world_of (main example_world_apart))
  = [mkChange "v1.2" "cccccccccccc" "dddddddddddd"] /\
  lookup_ref "v1" (local_tags (world_of (main example_world_apart)))
  = Some "aaaaaaaaaaaa".
Proof.
  pose proof (no_cascade_when_root_is_elsewhere example_world_apart 0 [] []
                "v1" "v1.2" "aaaaaaaaaaaa" "cccccccccccc" "dddddddddddd") as P.
  cbv zeta in P.
  destruct P as (_ & _ & _ & Hc & _ & _ & Hl & _).
  - split; [reflexivity | intros; reflexivity].
  - reflexivity.
  - reflexivity.
  - reflexivity.
  - reflexivity.
  - discriminate.
  - discriminate.
  - reflexivity.
  - reflexivity.
  - vm_compute. discriminate.
  - reflexivity.
  - split; [exact Hc | exact Hl].
Defined.

(* ===================================================================== *)
(** * Every run of [main] *)
(* ===================================================================== *)

(** The lines of a trace hold none of the given line. *)
Ltac not_in_lines :=
  cbn; intros Hin;
  repeat (destruct Hin as [Hin | Hin]; [discriminate Hin |]);
  exact Hin.

Ltac subseq := repeat first [apply SubTake | apply SubSkip | apply SubNil].

(** The bump workflow holds version tags, so it holds a root tag. *)
Ltac prune_no_root :=
  idtac;
  match goal with
  | H1 : Nat.eqb (length (filterVersionTags ?a)) 0 = false,
    H2 : negb (truthy_opt (getRootTag ?a)) = true |- _ =>
      rewrite getRootTag_of_version_tags in H2;
      [discriminate H2 | intros E; rewrite E in H1; discriminate H1]
  end.

(** C2 (defect of the code).  Outside a repository [git status] is
    rejected, [isGitRepo] prints "Not a Git repository." in red and [main]
    returns early ([if (!(await isGitRepo())) return;]) without a call of
    [process.exit]: the process ends with status 0, where the claim asks for
    a non-zero status.  It is the one stop of [main] after an error that
    misses [process.exit(1)]: the guards, the helpers and the handler all
    end the process with status 1. *)
Lemma main_not_a_repository_exits_zero :
  repo norepo_world = false /\
  broken Status norepo_world = true /\
  main norepo_world
  = (Ok tt, tick norepo_world,
     [EvGit Status false; EvLog StdOut Red "Not a Git repository."]) /\
  ~ exit_status (main norepo_world) <> 0.
Proof.
  repeat split. intros N. apply N. reflexivity.
Qed.

(** X25.  The status of every run of [main].  A run returns or calls
    [process.exit(1)].  When the repository check passes, the status is 0
    only by falling off the end of a workflow in which every gateway call
    was accepted and every prompt was answered: each guard, each helper and
    the handler end the process with status 1.  When the repository check
    fails, [main] prints "Not a Git repository." and returns, so the status
    is 0: the one stop after an error without [process.exit(1)]. *)
Theorem main_exit_status (w : World) :
  (broken Status w = true ->
     outcome_of (main w) = Ok tt /\
     trace_of (main w)
     = [EvGit Status false; EvLog StdOut Red "Not a Git repository."] /\
     exit_status (main w) = 0) /\
  (outcome_of (main w) = Ok tt \/ outcome_of (main w) = Exit 1) /\
  (exit_status (main w) = 0 \/ exit_status (main w) = 1) /\
  (broken Status w = false -> exit_status (main w) = 0 ->
     outcome_of (main w) = Ok tt /\
     forallb event_ok (trace_of (main w)) = true).
Proof.
  pattern (main w). unfold main.
  wp_run fail.
  all: cbv beta;
    change (broken Status (set_changes [] w)) with (broken Status w) in *;
    cbn [outcome_of world_of trace_of exit_status fst snd app forallb
         event_ok andb].
  all: repeat split; intros; try congruence; auto.
Qed.

Lemma main_exit_status_witness :
  exit_status (main norepo_world) = 0 /\
  forallb event_ok (trace_of (main example_world)) = true.
Proof.
  split.
  - apply (proj1 (main_exit_status norepo_world)). reflexivity.
  - apply (proj2 (proj2 (proj2 (main_exit_status example_world))));
      reflexivity.
Defined.

(** C9.  The handler of [main] tells [ExitPromptError] from every other
    error: for the first it logs "Canceled by User" on the standard output,
    for the others "An unexpected error occurred." and the error on the
    standard error, and in both cases it ends the process with status 1.
    So a run in which the user leaves a prompt ends with status 1 and
    "Canceled by User" as its last line, without the unexpected-error
    message; a run in which a prompt fails otherwise ends with status 1 and
    the unexpected-error message as its last line, without
    "Canceled by User". *)
Theorem user_cancellation_is_distinguished (w : World) :
  main_catch ExitPromptError w
  = (Exit 1, w, [EvLog StdOut Yellow "Canceled by User"]) /\
  (forall err, err <> ExitPromptError ->
     main_catch err w
     = (Exit 1, w, [EvLog StdErr Red "An unexpected error occurred.";
                    EvLogError err])) /\
  (existsb prompt_aborted (trace_of (main w)) = true ->
     exit_status (main w) = 1 /\
     last (console_lines (trace_of (main w))) (StdOut, EmptyString)
     = (StdOut, "Canceled by User") /\
     ~ In (StdErr, "An unexpected error occurred.")
          (console_lines (trace_of (main w)))) /\
  (existsb prompt_crashed (trace_of (main w)) = true ->
     exit_status (main w) = 1 /\
     last (console_lines (trace_of (main w))) (StdOut, EmptyString)
     = (StdErr, "An unexpected error occurred.") /\
     ~ In (StdOut, "Canceled by User") (console_lines (trace_of (main w)))).
Proof.
  split; [reflexivity |].
  split; [intros [| e | c] N; [contradiction | reflexivity | reflexivity] |].
  pattern (main w). unfold main.
  wp_run fail.
  all: cbv beta;
    cbn [outcome_of world_of trace_of exit_status fst snd app existsb
         prompt_aborted prompt_crashed orb].
  all: split; intros Hex; try discriminate Hex.
  all: split; [reflexivity | split; [reflexivity | not_in_lines]].
Qed.

Lemma user_cancellation_is_distinguished_witness :
  exit_status (main example_world_cancelled) = 1 /\
  last (console_lines (trace_of (main example_world_cancelled))) (StdOut, EmptyString)
  = (StdOut, "Canceled by User").
Proof.
  destruct (user_cancellation_is_distinguished example_world_cancelled)
    as (_ & _ & Ha & _).
  destruct Ha as (He & Hl & _); [reflexivity |].
  split; [exact He | exact Hl].
Defined.

(** C10.  Every name that matches [^v\d+\.\d+] matches [^v\d+]; so a tag
    list with a version tag has a root tag for [getRootTag], a truthy one;
    and no run of [main] prints "No root tag found. Exiting.": in the bump
    workflow the check comes after the exit on an empty version-tag list. *)
Theorem no_root_tag_exit_is_unreachable :
  (forall name,
     test versionTagPattern name = true -> test rootTagPattern name = true) /\
  (forall tags, filterVersionTags tags <> [] ->
     exists rootTag, getRootTag tags = Some rootTag /\ truthy rootTag = true) /\
  (forall w, ~ In (StdOut, "No root tag found. Exiting.")
                  (console_lines (trace_of (main w)))).
Proof.
  split; [exact versionTagPattern_rootTagPattern |]. split.
  - intros tags H. apply getRootTag_of_version_tags in H.
    destruct (getRootTag tags) as [r |]; [| discriminate].
    exists r. split; [reflexivity | exact H].
  - intros w. pattern (main w). unfold main.
    wp_run prune_no_root.
    all: cbv beta; cbn [trace_of snd app console_lines].
    all: not_in_lines.
Qed.

Lemma no_root_tag_exit_is_unreachable_witness :
  test rootTagPattern "v1.3.0" = true /\
  exists rootTag, getRootTag ["latest"; "v1.3.0"] = Some rootTag /\
                  truthy rootTag = true.
Proof.
  split.
  - apply (proj1 no_root_tag_exit_is_unreachable "v1.3.0"). reflexivity.
  - apply (proj1 (proj2 no_root_tag_exit_is_unreachable) ["latest"; "v1.3.0"]).
    discriminate.
Defined.

(** C4.  In every run of [main], each Change Record of the change list comes
    after an accepted delete, an accepted create at the record's new commit
    and an accepted force-push of the record's tag, in that order, and the
    change list has as many records as the run has accepted force-pushes;
    when a create or a force-push of a tag is rejected, the process ends
    with status 1 and the change list holds no record of that tag. *)
Theorem change_record_only_after_successful_retarget (w : World) :
  (forall rec, In rec (changes (world_of (main w))) ->
     Subseq [(TagDelete (tag rec), true);
             (TagCreate (tag rec) (newCommitHash rec), true);
             (PushForce (tag rec), true)]
            (git_calls (trace_of (main w)))) /\
  length (changes (world_of (main w)))
  = length (filter pushed (git_calls (trace_of (main w)))) /\
  (forall name,
     (exists c, In (TagCreate name c, false) (git_calls (trace_of (main w)))) \/
     In (PushForce name, false) (git_calls (trace_of (main w))) ->
     exit_status (main w) = 1 /\
     forall rec, In rec (changes (world_of (main w))) -> tag rec <> name).
Proof.
  pattern (main w). unfold main.
  wp_run fail.
  all: cbv beta;
    cbn [world_of trace_of exit_status fst snd app git_calls changes tick
         set_local set_remote set_selects set_confirms set_changes
         filter pushed length].
  all: split;
    [ intros rec Hin; cbn [In] in Hin;
      repeat (destruct Hin as [<- | Hin]); try contradiction;
      cbn [tag newCommitHash]; subseq
    | split;
      [ reflexivity
      | intros name Hin;
        destruct Hin as [[c Hin] | Hin]; cbn [In] in Hin;
        repeat (destruct Hin as [Hin | Hin];
                [first [ discriminate Hin
                       | injection Hin as <-
                       | injection Hin as <- <- ] |]);
        try contradiction;
        (split; [reflexivity |]);
        intros rec Hr; cbn [In] in Hr;
        repeat (destruct Hr as [<- | Hr]); try contradiction;
        cbn [tag]; eauto using selected_not_root ] ].
Qed.

Lemma change_record_only_after_successful_retarget_witness :
  exit_status (main example_world_push_rejected) = 1 /\
  changes (world_of (main example_world_push_rejected)) = [] /\
  Subseq [(TagDelete "v1.2", true); (TagCreate "v1.2" "dddddddddddd", true);
          (PushForce "v1.2", true)]
         (git_calls (trace_of (main example_world))).
Proof.
  destruct (change_record_only_after_successful_retarget
              example_world_push_rejected) as (_ & _ & Hf).
  destruct (Hf "v1.2") as [He _].
  { right. vm_compute. tauto. }
  split; [exact He |]. split; [reflexivity |].
  apply (proj1 (change_record_only_after_successful_retarget example_world)
           (mkChange "v1.2" "cccccccccccc" "dddddddddddd")).
  vm_compute. tauto.
Defined.

(* ===================================================================== *)
(** * Hashes and tag names *)
(* ===================================================================== *)

Lemma list_ascii_of_string_app s1 s2 :
  list_ascii_of_string (s1 ++ s2)%string
  = list_ascii_of_string s1 ++ list_ascii_of_string s2.
Proof. induction s1 as [| a s1 IH]; simpl; [reflexivity | rewrite IH; reflexivity]. Qed.

Section Shorten.

Lemma substring_0_length n s :
  String.length (substring 0 n s) = Nat.min n (String.length s).
Proof.
  revert s. induction n as [| n IH]; intros [| c s]; simpl; auto.
Qed.

Lemma substring_0_prefix n s : prefix (substring 0 n s) s = true.
Proof.
  revert s. induction n as [| n IH]; intros [| c s]; simpl; auto.
  destruct (ascii_dec c c) as [_ | N]; [apply IH | elim N; reflexivity].
Qed.

Lemma substring_0_short n s : String.length s <= n -> substring 0 n s = s.
Proof.
  revert s. induction n as [| n IH]; intros [| c s]; simpl; intros H; auto; try lia.
  rewrite IH by lia. reflexivity.
Qed.

End Shorten.

(** X1.  [shortenCommitHash] returns the first seven characters of the
    hash: the result is a prefix of the hash, of length seven or the length
    of the hash when that is less; shortening twice is shortening once, and
    a hash of at most seven characters is returned as it is. *)
Theorem shortenCommitHash_is_short_prefix (commitHash : string) :
  String.length (shortenCommitHash commitHash)
  = Nat.min 7 (String.length commitHash) /\
  prefix (shortenCommitHash commitHash) commitHash = true /\
  shortenCommitHash (shortenCommitHash commitHash)
  = shortenCommitHash commitHash /\
  (String.length commitHash <= 7 -> shortenCommitHash commitHash = commitHash).
Proof.
  unfold shortenCommitHash. repeat split.
  - apply substring_0_length.
  - apply substring_0_prefix.
  - apply substring_0_short. rewrite substring_0_length. lia.
  - apply substring_0_short.
Qed.

Lemma shortenCommitHash_is_short_prefix_witness :
  shortenCommitHash "abc1234" = "abc1234".
Proof.
  apply (proj2 (proj2 (proj2 (shortenCommitHash_is_short_prefix "abc1234")))).
  simpl. lia.
Defined.

Section Trim.

Lemma drop_spaces_clean l : starts_clean (drop_spaces l) = true.
Proof.
  induction l as [| c l IH]; simpl; [reflexivity |].
  destruct (is_space c) eqn:E; [exact IH |]. simpl. rewrite E. reflexivity.
Qed.

Lemma drop_spaces_id l : starts_clean l = true -> drop_spaces l = l.
Proof.
  destruct l as [| c l]; simpl; [reflexivity |].
  destruct (is_space c); [discriminate | reflexivity].
Qed.

Lemma drop_spaces_suffix l : exists p, l = p ++ drop_spaces l.
Proof.
  induction l as [| c l [p IH]]; simpl; [exists []; reflexivity |].
  destruct (is_space c).
  - exists (c :: p). simpl. rewrite <- IH. reflexivity.
  - exists []. reflexivity.
Qed.

Lemma starts_clean_prefix l1 l2 :
  starts_clean (l1 ++ l2) = true -> starts_clean l1 = true.
Proof. destruct l1; simpl; auto. Qed.

Lemma trim_list_clean l :
  let l' := rev (drop_spaces (rev (drop_spaces l))) in
  starts_clean l' = true /\ starts_clean (rev l') = true.
Proof.
  cbv zeta. rewrite rev_involutive. split; [| apply drop_spaces_clean].
  destruct (drop_spaces_suffix (rev (drop_spaces l))) as [p E].
  apply (f_equal (@rev ascii)) in E. rewrite rev_involutive, rev_app_distr in E.
  pose proof (drop_spaces_clean l) as C. rewrite E in C.
  exact (starts_clean_prefix _ _ C).
Qed.

Lemma trim_clean s : clean (trim s) = true.
Proof.
  unfold clean, trim. rewrite list_ascii_of_string_of_list_ascii.
  destruct (trim_list_clean (list_ascii_of_string s)) as [H1 H2].
  rewrite H1, H2. reflexivity.
Qed.

Lemma trim_of_clean s : clean s = true -> trim s = s.
Proof.
  unfold clean, trim. intros H. apply andb_true_iff in H as [H1 H2].
  rewrite (drop_spaces_id _ H1), (drop_spaces_id _ H2), rev_involutive.
  apply string_of_list_ascii_of_string.
Qed.

Lemma trim_line s : clean s = true -> trim (s ++ LF) = s.
Proof.
  unfold clean, trim. intros H. apply andb_true_iff in H as [H1 H2].
  rewrite list_ascii_of_string_app.
  destruct (list_ascii_of_string s) as [| c l] eqn:E.
  - simpl. destruct s; [reflexivity | discriminate].
  - assert (D : drop_spaces ((c :: l) ++ list_ascii_of_string LF)
                = (c :: l) ++ list_ascii_of_string LF).
    { apply drop_spaces_id. exact H1. }
    rewrite D, rev_app_distr.
    change (rev (list_ascii_of_string LF)) with [ascii_of_nat 10].
    change (drop_spaces ([ascii_of_nat 10] ++ rev (c :: l)))
      with (drop_spaces (rev (c :: l))).
    rewrite (drop_spaces_id _ H2), rev_involutive, <- E.
    apply string_of_list_ascii_of_string.
Qed.

End Trim.

Lemma string_of_list_ascii_app l1 l2 :
  string_of_list_ascii (l1 ++ l2)
  = (string_of_list_ascii l1 ++ string_of_list_ascii l2)%string.
Proof. induction l1 as [| a l1 IH]; simpl; [reflexivity | rewrite IH; reflexivity]. Qed.

Lemma matches_star_digit p : matches (Star Digit) p -> forallb is_digit p = true.
Proof.
  intros H. remember (Star Digit) as r eqn:E.
  induction H; try discriminate; [reflexivity |].
  injection E as ->. rewrite forallb_app, IHmatches2 by reflexivity.
  inversion H as [| | c D | | | | |]; subst. simpl. rewrite D. reflexivity.
Qed.

Lemma star_digit_matches p : forallb is_digit p = true -> matches (Star Digit) p.
Proof.
  induction p as [| d p IH]; simpl; intros H; [constructor |].
  apply andb_true_iff in H as [D H].
  change (d :: p) with ([d] ++ p). constructor; [constructor; exact D | auto].
Qed.

Lemma matches_plus_digit_iff p :
  matches (Plus Digit) p <-> p <> [] /\ forallb is_digit p = true.
Proof.
  split.
  - intros H. apply matches_seq_inv in H as (s1 & s2 & -> & H1 & H2).
    inversion H1 as [| | c D | | | | |]; subst. apply matches_star_digit in H2.
    split; [discriminate |]. simpl. rewrite D, H2. reflexivity.
  - intros [N H]. destruct p as [| d p]; [contradiction |].
    simpl in H. apply andb_true_iff in H as [D H].
    change (d :: p) with ([d] ++ p). constructor;
      [constructor; exact D | apply star_digit_matches; exact H].
Qed.

(** X2.  What the two patterns of the classifier accept: [/^v\d+/] the
    names that start with [v] and a digit; [/^v\d+\.\d+/] the names that
    start with [v], one digit or more, a dot and a digit.  Whatever follows
    is accepted. *)
Theorem tag_patterns_accept (name : string) :
  (test rootTagPattern name = true <->
   exists d rest, name = String "v" (String d rest) /\ is_digit d = true) /\
  (test versionTagPattern name = true <->
   exists major d rest,
     name = String "v" (string_of_list_ascii major
                          ++ String "." (String d rest))%string /\
     major <> [] /\ forallb is_digit major = true /\ is_digit d = true).
Proof.
  split; [apply test_rootTagPattern |].
  rewrite test_spec. split.
  - intros (p & q & E & H).
    apply matches_seq_inv in H as (s1 & s2 & -> & H1 & H2).
    apply matches_chr_inv in H1 as ->.
    apply matches_seq_inv in H2 as (major & s3 & -> & H3 & H4).
    apply matches_seq_inv in H4 as (s4 & s5 & -> & H5 & H6).
    apply matches_chr_inv in H5 as ->.
    apply matches_plus_digit in H6 as (d & p' & -> & D).
    apply matches_plus_digit_iff in H3 as [N F].
    exists major, d, (string_of_list_ascii (p' ++ q)).
    repeat split; auto.
    rewrite <- (string_of_list_ascii_of_string name), E. simpl.
    rewrite <- !app_assoc, string_of_list_ascii_app. reflexivity.
  - intros (major & d & rest & -> & N & F & D).
    exists ("v"%char :: major ++ ["."%char; d]), (list_ascii_of_string rest).
    split.
    + simpl. rewrite list_ascii_of_string_app, list_ascii_of_string_of_list_ascii.
      simpl. rewrite <- app_assoc. reflexivity.
    + change ("v"%char :: major ++ ["."%char; d])
        with (["v"%char] ++ (major ++ (["."%char] ++ ([d] ++ [])))).
      constructor; [constructor |].
      constructor; [apply matches_plus_digit_iff; auto |].
      constructor; [constructor |].
      constructor; [constructor; exact D | constructor].
Qed.

Lemma tag_patterns_accept_witness :
  test versionTagPattern "v1.2.3" = true.
Proof.
  apply (proj2 (proj2 (tag_patterns_accept "v1.2.3"))).
  exists ["1"%char], "2"%char, ".3"%string.
  repeat split; [discriminate].
Defined.

Section VersionTagList.

Lemma filter_idempotent (A : Type) (f : A -> bool) (l : list A) :
  filter f (filter f l) = filter f l.
Proof.
  induction l as [| a l IH]; simpl; [reflexivity |].
  destruct (f a) eqn:E; simpl; [rewrite E, IH; reflexivity | exact IH].
Qed.

Lemma filter_nil_iff (A : Type) (f : A -> bool) (l : list A) :
  filter f l = [] <-> forall x, In x l -> f x = false.
Proof.
  induction l as [| a l IH]; simpl; [tauto |].
  destruct (f a) eqn:E; split.
  - discriminate.
  - intros H. rewrite (H a) in E by auto. discriminate.
  - intros H x [<- | Hx]; [exact E | apply IH; assumption].
  - intros H. apply IH. auto.
Qed.

Lemma not_root_not_version t :
  test rootTagPattern t = false -> test versionTagPattern t = false.
Proof.
  intros H. destruct (test versionTagPattern t) eqn:V; [| reflexivity].
  apply versionTagPattern_rootTagPattern in V. congruence.
Qed.

End VersionTagList.

(** X3.  [filterVersionTags] keeps the names that match [/^v\d+\.\d+/],
    in their order, and nothing else; filtering again changes nothing.  A
    tag list without a root tag has no version tag; and when the root tag
    that [getRootTag] finds is itself a version tag, it is the first of the
    version tags, so the first choice that the bump workflow offers. *)
Theorem filterVersionTags_keeps_version_tags (tags : list string) :
  Subseq (filterVersionTags tags) tags /\
  (forall t, In t (filterVersionTags tags) <->
             In t tags /\ test versionTagPattern t = true) /\
  filterVersionTags (filterVersionTags tags) = filterVersionTags tags /\
  (getRootTag tags = None -> filterVersionTags tags = []) /\
  (forall rootTag, getRootTag tags = Some rootTag ->
     test versionTagPattern rootTag = true ->
     exists rest, filterVersionTags tags = rootTag :: rest).
Proof.
  unfold filterVersionTags. repeat apply conj.
  - apply filter_Subseq.
  - intros t. apply filter_In.
  - apply filter_idempotent.
  - intros N. apply filter_nil_iff. intros t Ht.
    apply not_root_not_version. exact (proj1 (getRootTag_None tags) N t Ht).
  - intros r R V. apply getRootTag_Some in R as (l1 & l2 & -> & _ & F).
    exists (filter (fun tag => test versionTagPattern tag) l2).
    rewrite filter_app. simpl. rewrite V.
    replace (filter (fun tag => test versionTagPattern tag) l1) with (@nil string);
      [reflexivity |].
    symmetry. apply filter_nil_iff. intros t Ht.
    apply not_root_not_version, F, Ht.
Qed.

Lemma filterVersionTags_keeps_version_tags_witness :
  exists rest, filterVersionTags ["latest"; "v1.2.3"; "v2"] = "v1.2.3" :: rest.
Proof.
  apply (proj2 (proj2 (proj2 (proj2
           (filterVersionTags_keeps_version_tags ["latest"; "v1.2.3"; "v2"]))))
           "v1.2.3"); reflexivity.
Defined.

(* ===================================================================== *)
(** * The helpers, one by one *)
(* ===================================================================== *)

Section FetchRefs.

Lemma lookup_ref_In name refs :
  In name (map fst refs) <-> lookup_ref name refs <> None.
Proof.
  unfold lookup_ref. induction refs as [| [n c] refs IH]; simpl.
  - split; [contradiction | intros H; apply H; reflexivity].
  - destruct (String.eqb_spec n name) as [-> | N].
    + split; [discriminate | auto].
    + rewrite <- IH. split; [intros [E | H]; [contradiction | exact H] | auto].
Qed.

Lemma lookup_fetch name loc rem :
  lookup_ref name (fetch_refs loc rem) =
  match lookup_ref name loc with
  | Some c => Some c
  | None => lookup_ref name rem
  end.
Proof.
  unfold fetch_refs. rewrite lookup_app.
  destruct (lookup_ref name loc) eqn:E; [reflexivity |].
  unfold lookup_ref at 1 3.
  induction rem as [| [n c] rem IH]; simpl; [reflexivity |].
  destruct (String.eqb_spec n name) as [-> | N].
  - rewrite E. simpl. rewrite String.eqb_refl. reflexivity.
  - destruct (lookup_ref n loc); simpl; [exact IH |].
    destruct (String.eqb_spec n name); [contradiction | exact IH].
Qed.

End FetchRefs.

(** X4.  [getTags] fetches the tags of the remote and then lists the local
    tags, in that order.  It changes no tag of the remote and moves no
    local tag.  When it returns, both calls were accepted, the list is the
    list of the local tags after the fetch, and it holds exactly the names
    that were known locally or on the remote.  When it does not return, the
    process ends with status 1 after the line "Error fetching tags." on the
    standard error.  In a healthy world it returns. *)
Theorem getTags_fetches_then_lists (w : World) :
  let r := getTags w in
  (exists n, map fst (git_calls (trace_of r)) = firstn n [FetchTags; ListTags]) /\
  remote_tags (world_of r) = remote_tags w /\
  (forall name c, lookup_ref name (local_tags w) = Some c ->
     lookup_ref name (local_tags (world_of r)) = Some c) /\
  (forall tags, outcome_of r = Ok tags ->
     git_calls (trace_of r) = [(FetchTags, true); (ListTags, true)] /\
     tags = map fst (local_tags (world_of r)) /\
     (forall name, In name tags <->
        lookup_ref name (local_tags w) <> None \/
        lookup_ref name (remote_tags w) <> None) /\
     (forall name, In name tags ->
        lookup_ref name (local_tags (world_of r)) <> None)) /\
  ((exists tags, outcome_of r = Ok tags) \/
   (outcome_of r = Exit 1 /\
    last (console_lines (trace_of r)) (StdOut, EmptyString)
    = (StdErr, "Error fetching tags."))) /\
  (healthy w -> exists tags, outcome_of r = Ok tags).
Proof.
  cbv zeta. rewrite getTags_run.
  assert (F : forall name c, lookup_ref name (local_tags w) = Some c ->
            lookup_ref name (fetch_refs (local_tags w) (remote_tags w)) = Some c).
  { intros name c E. rewrite lookup_fetch, E. reflexivity. }
  destruct (broken FetchTags w) eqn:B1; cbv zeta;
    [| destruct (broken ListTags _) eqn:B2];
    cbn [outcome_of world_of trace_of fst snd git_calls map local_tags
         remote_tags tick set_local console_lines last].
  - split; [exists 1; reflexivity |]. split; [reflexivity |].
    split; [auto |]. split; [discriminate |].
    split; [right; split; reflexivity |].
    intros H. rewrite (healthy_broken _ _ H) in B1. discriminate.
  - split; [exists 2; reflexivity |]. split; [reflexivity |].
    split; [exact F |]. split; [discriminate |].
    split; [right; split; reflexivity |].
    intros H. rewrite healthy_broken in B2; [discriminate | exact H].
  - split; [exists 2; reflexivity |]. split; [reflexivity |].
    split; [exact F |]. split; [| split; [left |]; eexists; reflexivity].
    intros tags [= <-]. split; [reflexivity |]. split; [reflexivity |].
    split.
    + intros name. rewrite lookup_ref_In, lookup_fetch.
      destruct (lookup_ref name (local_tags w)); split.
      * left. discriminate.
      * discriminate.
      * right. assumption.
      * intros [H | H]; [contradiction | exact H].
    + intros name. apply lookup_ref_In.
Qed.

Lemma getTags_fetches_then_lists_witness :
  exists tags, outcome_of (getTags example_world) = Ok tags.
Proof.
  apply (getTags_fetches_then_lists example_world).
  split; [reflexivity | intros; reflexivity].
Defined.

(** The rejected call of a trace, found by position. *)
Ltac first_failure :=
  first
    [ exists []; do 3 eexists; split; [reflexivity |]
    | eexists [_]; do 3 eexists; split; [reflexivity |]
    | eexists [_; _]; do 3 eexists; split; [reflexivity |]
    | eexists [_; _; _]; do 3 eexists; split; [reflexivity |]
    | eexists [_; _; _; _]; do 3 eexists; split; [reflexivity |]
    | eexists [_; _; _; _; _]; do 3 eexists; split; [reflexivity |] ];
  split; reflexivity.

Ltac contained_cases :=
  repeat match goal with
         | |- context [if ?b then _ else _] => destruct b
         | |- context [match ?o with Some _ => _ | None => _ end] => destruct o
         end;
  cbn [outcome_of trace_of fst snd];
  first [reflexivity | split; [reflexivity | first_failure]].

Section Contained.

Lemma retarget_tree_contained starting failed done tag commitHash w :
  let r := retarget_tree starting failed done tag commitHash w in
  match outcome_of r with
  | Ok _ => forallb event_ok (trace_of r) = true
  | Throw _ => False
  | Exit code => code = 1 /\ stops_at_first_failure (trace_of r)
  end.
Proof. cbv zeta. unfold retarget_tree. cbv zeta. contained_cases. Qed.

End Contained.

(** X5.  No helper lets an exception out.  [isGitRepo] always returns, the
    answer being whether [git status] was accepted.  Each other helper
    either returns after events that all went well, or ends the process with
    status 1 at the first rejected gateway call, right after which it writes
    a red line to the standard error; it makes no gateway call after the
    rejected one. *)
Theorem helpers_contain_their_errors :
  (forall w, outcome_of (isGitRepo w) = Ok (negb (broken Status w))) /\
  contained getTags /\
  contained getLatestCommitHash /\
  (forall tag, contained (getCommitOfTag tag)) /\
  (forall tag, contained (deleteLocalTag tag)) /\
  (forall tag, contained (forcePushTag tag)) /\
  (forall tag commitHash, contained (updateTag tag commitHash)) /\
  (forall rootTag commitHash, contained (updateRootTag rootTag commitHash)).
Proof.
  split; [| unfold contained; repeat apply conj; intros].
  - intros w. rewrite isGitRepo_run. destruct (broken Status w); reflexivity.
  - rewrite getTags_run. cbv zeta. contained_cases.
  - rewrite getLatestCommitHash_run. contained_cases.
  - rewrite getCommitOfTag_run. contained_cases.
  - rewrite deleteLocalTag_run. contained_cases.
  - rewrite forcePushTag_run. contained_cases.
  - rewrite updateTag_run. apply retarget_tree_contained.
  - rewrite updateRootTag_run. apply retarget_tree_contained.
Qed.

Lemma helpers_contain_their_errors_witness :
  outcome_of (isGitRepo norepo_world) = Ok false /\
  stops_at_first_failure (trace_of (getTags norepo_world)).
Proof.
  split.
  - apply (proj1 helpers_contain_their_errors norepo_world).
  - apply (proj1 (proj2 helpers_contain_their_errors) norepo_world).
Defined.

(** X6.  [isGitRepo], [getLatestCommitHash] and [getCommitOfTag] are
    queries: whatever their outcome, the world after them is the world
    before with one more gateway call counted; tags, HEAD, the pending
    replies of the user and the change list are as before. *)
Theorem queries_change_nothing (w : World) :
  world_of (isGitRepo w) = tick w /\
  world_of (getLatestCommitHash w) = tick w /\
  (forall tag, world_of (getCommitOfTag tag w) = tick w) /\
  local_tags (tick w) = local_tags w /\
  remote_tags (tick w) = remote_tags w /\
  head_commit (tick w) = head_commit w /\
  selects (tick w) = selects w /\
  confirms (tick w) = confirms w /\
  changes (tick w) = changes w.
Proof.
  rewrite isGitRepo_run, getLatestCommitHash_run.
  split; [destruct (broken Status w); reflexivity |].
  split; [destruct (broken (RevParse "HEAD") w);
          [| destruct (head_commit w)]; reflexivity |].
  split; [| repeat split].
  intros tag. rewrite getCommitOfTag_run.
  destruct (broken (RevParse tag) w); [| destruct (resolve_ref tag w)];
    reflexivity.
Qed.

(** X7.  A hash returned by [getLatestCommitHash] or [getCommitOfTag] is
    the output of [git rev-parse] without the white space at its ends:
    it neither starts nor ends with white space, and trimming it again
    changes nothing.  When the commit that git prints (followed by a line
    feed) has no white space at its ends, that commit is returned as it
    is. *)
Theorem commit_hashes_are_trimmed (w : World) :
  (forall c, outcome_of (getLatestCommitHash w) = Ok c ->
     exists c0, head_commit w = Some c0 /\ c = trim (c0 ++ LF) /\
                clean c = true /\ trim c = c) /\
  (forall tag c, outcome_of (getCommitOfTag tag w) = Ok c ->
     exists c0, resolve_ref tag w = Some c0 /\ c = trim (c0 ++ LF) /\
                clean c = true /\ trim c = c) /\
  (forall c0, clean c0 = true ->
     broken (RevParse "HEAD") w = false -> head_commit w = Some c0 ->
     outcome_of (getLatestCommitHash w) = Ok c0) /\
  (forall tag c0, clean c0 = true ->
     broken (RevParse tag) w = false -> resolve_ref tag w = Some c0 ->
     outcome_of (getCommitOfTag tag w) = Ok c0).
Proof.
  repeat apply conj.
  - intros c. rewrite getLatestCommitHash_run.
    destruct (broken (RevParse "HEAD") w); [discriminate |].
    destruct (head_commit w) as [c0 |]; [| discriminate].
    intros [= <-]. exists c0. repeat split;
      [apply trim_clean | apply trim_of_clean, trim_clean].
  - intros tag c. rewrite getCommitOfTag_run.
    destruct (broken (RevParse tag) w); [discriminate |].
    destruct (resolve_ref tag w) as [c0 |]; [| discriminate].
    intros [= <-]. exists c0. repeat split;
      [apply trim_clean | apply trim_of_clean, trim_clean].
  - intros c0 C B E. rewrite getLatestCommitHash_run, B, E.
    cbn [outcome_of fst]. rewrite (trim_line _ C). reflexivity.
  - intros tag c0 C B E. rewrite getCommitOfTag_run, B, E.
    cbn [outcome_of fst]. rewrite (trim_line _ C). reflexivity.
Qed.

Lemma commit_hashes_are_trimmed_witness :
  outcome_of (getCommitOfTag "v1.1" example_world) = Ok "bbbbbbbbbbbb".
Proof.
  apply (proj2 (proj2 (proj2 (commit_hashes_are_trimmed example_world)))
           "v1.1" "bbbbbbbbbbbb"); reflexivity.
Defined.

(** X8.  [deleteLocalTag] returns exactly when the call is accepted and
    the tag exists locally; then the tag is gone locally and every other
    local tag is where it was; otherwise the process ends with status 1 and
    the local tags are as before.  It never changes the remote.
    [forcePushTag] returns exactly when the call is accepted and the tag
    exists locally; then the remote tag points where the local tag points
    and every other remote tag is where it was; otherwise the process ends
    with status 1 and the remote is as before.  It never changes the local
    tags. *)
Theorem delete_and_push_one_tag (tag : string) (w : World) :
  let rd := deleteLocalTag tag w in
  let rp := forcePushTag tag w in
  (outcome_of rd = Ok tt <->
     broken (TagDelete tag) w = false /\ lookup_ref tag (local_tags w) <> None) /\
  (outcome_of rd = Ok tt ->
     lookup_ref tag (local_tags (world_of rd)) = None /\
     forall other, other <> tag ->
       lookup_ref other (local_tags (world_of rd))
       = lookup_ref other (local_tags w)) /\
  (outcome_of rd <> Ok tt ->
     outcome_of rd = Exit 1 /\ local_tags (world_of rd) = local_tags w) /\
  remote_tags (world_of rd) = remote_tags w /\
  (outcome_of rp = Ok tt <->
     broken (PushForce tag) w = false /\ lookup_ref tag (local_tags w) <> None) /\
  (outcome_of rp = Ok tt ->
     lookup_ref tag (remote_tags (world_of rp)) = lookup_ref tag (local_tags w) /\
     forall other, other <> tag ->
       lookup_ref other (remote_tags (world_of rp))
       = lookup_ref other (remote_tags w)) /\
  (outcome_of rp <> Ok tt ->
     outcome_of rp = Exit 1 /\ remote_tags (world_of rp) = remote_tags w) /\
  local_tags (world_of rp) = local_tags w.
Proof.
  cbv zeta. rewrite deleteLocalTag_run, forcePushTag_run.
  destruct (broken (TagDelete tag) w), (broken (PushForce tag) w),
    (lookup_ref tag (local_tags w)) as [c |] eqn:L;
    cbn [outcome_of world_of fst snd local_tags remote_tags tick set_local
         set_remote];
    repeat match goal with
           | |- _ /\ _ => split
           | |- _ <-> _ => split
           | |- _ -> _ => intro
           | |- forall _, _ => intro
           | H : _ /\ _ |- _ => destruct H
           end;
    first [ congruence
          | apply lookup_delete_same
          | apply lookup_delete_other; assumption
          | apply lookup_set_same
          | apply lookup_set_other; assumption ].
Qed.

Lemma delete_and_push_one_tag_witness :
  lookup_ref "v1.2" (remote_tags (world_of (forcePushTag "v1.2" example_world)))
  = lookup_ref "v1.2" (local_tags example_world).
Proof.
  apply (delete_and_push_one_tag "v1.2" example_world).
  apply (delete_and_push_one_tag "v1.2" example_world).
  split; [reflexivity | vm_compute; discriminate].
Defined.

(* ===================================================================== *)
(** * The retarget operation: failure, frame, reading back *)
(* ===================================================================== *)

Section RetargetFacts.

Variables (starting failed : string) (done : string -> string).
Variables (tag commitHash : string) (w : World).

Let r := retarget_tree starting failed done tag commitHash w.

Ltac tree_cases :=
  unfold r, retarget_tree; cbv zeta;
  destruct (if broken (RevParse tag) w then None else resolve_ref tag w);
  [ destruct (broken (TagDelete tag) (tick w));
    [| destruct (lookup_ref tag (local_tags w)) eqn:L;
       [ destruct (broken (TagCreate tag commitHash) _);
         [| destruct (broken (PushForce tag) _)] |] ] |];
  cbn [outcome_of world_of trace_of fst snd app git_calls local_tags
       remote_tags head_commit selects confirms changes tick set_local
       set_remote].

Lemma retarget_tree_create_rejected :
  In (TagCreate tag commitHash, false) (git_calls (trace_of r)) ->
  outcome_of r = Exit 1 /\
  lookup_ref tag (local_tags w) <> None /\
  lookup_ref tag (local_tags (world_of r)) = None /\
  remote_tags (world_of r) = remote_tags w.
Proof.
  tree_cases; intros H; cbn [In] in H;
    repeat (destruct H as [H | H]; [discriminate H |]);
    try contradiction.
  destruct H as [_ | []].
  repeat split; [congruence | apply lookup_delete_same].
Qed.

Lemma retarget_tree_push_rejected :
  In (PushForce tag, false) (git_calls (trace_of r)) ->
  outcome_of r = Exit 1 /\
  lookup_ref tag (local_tags (world_of r)) = Some commitHash /\
  remote_tags (world_of r) = remote_tags w.
Proof.
  tree_cases; intros H; cbn [In] in H;
    repeat (destruct H as [H | H]; [discriminate H |]);
    try contradiction.
  repeat split. apply lookup_recreate_same.
Qed.

Lemma retarget_tree_frame other :
  other <> tag ->
  lookup_ref other (local_tags (world_of r)) = lookup_ref other (local_tags w) /\
  lookup_ref other (remote_tags (world_of r))
  = lookup_ref other (remote_tags w) /\
  head_commit (world_of r) = head_commit w /\
  selects (world_of r) = selects w /\
  confirms (world_of r) = confirms w /\
  changes (world_of r) = changes w.
Proof.
  intros N. tree_cases; repeat split;
    first [ apply lookup_delete_other; exact N
          | apply lookup_recreate_other; exact N
          | apply lookup_set_other; exact N ].
Qed.

End RetargetFacts.

Lemma retarget_tree_no_rollback (f : string -> string -> M ChangeRecord)
    (starting failed : string -> string -> string)
    (done : string -> string -> string -> string) :
  (forall tag commitHash w,
     f tag commitHash w
     = retarget_tree (starting tag commitHash) (failed tag commitHash)
         (done tag commitHash) tag commitHash w) ->
  no_rollback f.
Proof.
  intros E tag commitHash w. rewrite E. cbv zeta. split.
  - apply retarget_tree_create_rejected.
  - apply retarget_tree_push_rejected.
Qed.

(** X9.  A retarget that fails half-way is not undone.  When the creation
    of the tag at the destination is rejected, the process ends with status
    1 and the tag, which existed, is gone locally; when the force-push is
    rejected, the process ends with status 1 and the local tag points at the
    destination; in both cases the remote is as it was, so the local and
    the remote tag are left apart. *)
Theorem failed_retarget_is_not_rolled_back :
  no_rollback updateTag /\ no_rollback updateRootTag.
Proof.
  split.
  - apply (retarget_tree_no_rollback updateTag
             (fun tag commitHash =>
                ("Updating tag " ++ tag ++ " to point to commit "
                   ++ shortenCommitHash commitHash)%string)
             (fun _ _ => "Error updating tag."%string)
             (fun tag commitHash old =>
                ("Tag " ++ tag ++ " updated from " ++ shortenCommitHash old
                   ++ " to " ++ shortenCommitHash commitHash)%string)).
    intros. apply updateTag_run.
  - apply (retarget_tree_no_rollback updateRootTag
             (fun tag commitHash =>
                ("Updating root tag " ++ tag ++ " to point to commit "
                   ++ shortenCommitHash commitHash)%string)
             (fun _ _ => "Error updating root tag."%string)
             (fun tag commitHash old =>
                ("Root tag " ++ tag ++ " updated from "
                   ++ shortenCommitHash old
                   ++ " to " ++ shortenCommitHash commitHash)%string)).
    intros. apply updateRootTag_run.
Qed.

Lemma failed_retarget_is_not_rolled_back_witness :
  lookup_ref "v1.2"
    (local_tags (world_of (updateTag "v1.2" "dddddddddddd"
                             example_world_create_rejected))) = None /\
  lookup_ref "v1.2"
    (local_tags (world_of (updateRootTag "v1.2" "dddddddddddd"
                             example_world_push_rejected)))
  = Some "dddddddddddd".
Proof.
  split.
  - apply (proj1 (proj1 failed_retarget_is_not_rolled_back
                    "v1.2" "dddddddddddd" example_world_create_rejected)).
    vm_compute. tauto.
  - apply (proj2 (proj2 failed_retarget_is_not_rolled_back
                    "v1.2" "dddddddddddd" example_world_push_rejected)).
    vm_compute. tauto.
Defined.

Lemma retarget_tree_retarget_frame (f : string -> string -> M ChangeRecord)
    (starting failed : string -> string -> string)
    (done : string -> string -> string -> string) :
  (forall tag commitHash w,
     f tag commitHash w
     = retarget_tree (starting tag commitHash) (failed tag commitHash)
         (done tag commitHash) tag commitHash w) ->
  retarget_frame f.
Proof.
  intros E tag commitHash w other N. rewrite E. cbv zeta.
  apply retarget_tree_frame. exact N.
Qed.

(** X10.  [updateTag] and [updateRootTag] touch the tag they are given and
    nothing else: however the run ends, every other tag points where it
    did, locally and on the remote, and HEAD, the pending replies of the
    user and the change list are as before. *)
Theorem retarget_touches_one_tag :
  retarget_frame updateTag /\ retarget_frame updateRootTag.
Proof.
  split.
  - apply (retarget_tree_retarget_frame updateTag
             (fun tag commitHash =>
                ("Updating tag " ++ tag ++ " to point to commit "
                   ++ shortenCommitHash commitHash)%string)
             (fun _ _ => "Error updating tag."%string)
             (fun tag commitHash old =>
                ("Tag " ++ tag ++ " updated from " ++ shortenCommitHash old
                   ++ " to " ++ shortenCommitHash commitHash)%string)).
    intros. apply updateTag_run.
  - apply (retarget_tree_retarget_frame updateRootTag
             (fun tag commitHash =>
                ("Updating root tag " ++ tag ++ " to point to commit "
                   ++ shortenCommitHash commitHash)%string)
             (fun _ _ => "Error updating root tag."%string)
             (fun tag commitHash old =>
                ("Root tag " ++ tag ++ " updated from "
                   ++ shortenCommitHash old
                   ++ " to " ++ shortenCommitHash commitHash)%string)).
    intros. apply updateRootTag_run.
Qed.

Lemma retarget_touches_one_tag_witness :
  lookup_ref "v1.1"
    (local_tags (world_of (updateTag "v1.2" "dddddddddddd" example_world)))
  = lookup_ref "v1.1" (local_tags example_world).
Proof.
  apply (proj1 retarget_touches_one_tag "v1.2" "dddddddddddd" example_world "v1.1").
  discriminate.
Defined.

Lemma retarget_tree_read_back (f : string -> string -> M ChangeRecord)
    (starting failed : string -> string -> string)
    (done : string -> string -> string -> string) :
  (forall tag commitHash w,
     f tag commitHash w
     = retarget_tree (starting tag commitHash) (failed tag commitHash)
         (done tag commitHash) tag commitHash w) ->
  retarget_read_back f.
Proof.
  intros E tag commitHash w rec N O. cbv zeta. intros B.
  rewrite E in O, B |- *.
  destruct (retarget_tree_returns _ _ _ _ _ _ _ O) as (c0 & _ & -> & _ & L & _).
  cbn [newCommitHash].
  rewrite getCommitOfTag_run, B, resolve_ref_tag, L;
    [split; reflexivity | apply String.eqb_neq; exact N].
Qed.

(** X11.  After a retarget that returned, [getCommitOfTag] of the same tag
    (not named HEAD), when its call is accepted, returns the destination
    commit, trimmed: the [newCommitHash] of the record that the retarget
    returned. *)
Theorem retargeted_tag_resolves_to_destination :
  retarget_read_back updateTag /\ retarget_read_back updateRootTag.
Proof.
  split.
  - apply (retarget_tree_read_back updateTag
             (fun tag commitHash =>
                ("Updating tag " ++ tag ++ " to point to commit "
                   ++ shortenCommitHash commitHash)%string)
             (fun _ _ => "Error updating tag."%string)
             (fun tag commitHash old =>
                ("Tag " ++ tag ++ " updated from " ++ shortenCommitHash old
                   ++ " to " ++ shortenCommitHash commitHash)%string)).
    intros. apply updateTag_run.
  - apply (retarget_tree_read_back updateRootTag
             (fun tag commitHash =>
                ("Updating root tag " ++ tag ++ " to point to commit "
                   ++ shortenCommitHash commitHash)%string)
             (fun _ _ => "Error updating root tag."%string)
             (fun tag commitHash old =>
                ("Root tag " ++ tag ++ " updated from "
                   ++ shortenCommitHash old
                   ++ " to " ++ shortenCommitHash commitHash)%string)).
    intros. apply updateRootTag_run.
Qed.

Lemma retargeted_tag_resolves_to_destination_witness :
  outcome_of (getCommitOfTag "v1.2"
                (world_of (updateTag "v1.2" "dddddddddddd" example_world)))
  = Ok (trim ("dddddddddddd" ++ LF)).
Proof.
  apply (proj1 retargeted_tag_resolves_to_destination
           "v1.2" "dddddddddddd" example_world
           (mkChange "v1.2" "cccccccccccc" "dddddddddddd")).
  - discriminate.
  - reflexivity.
  - reflexivity.
Defined.

(* ===================================================================== *)
(** * The retarget operation and its earlier version *)
(* ===================================================================== *)

Ltac earlier_leaf :=
  cbn [outcome_of world_of trace_of fst snd git_calls app];
  repeat split; intros; first [reflexivity | congruence].

Ltac earlier_run :=
  unfold_monad; cbv beta iota;
  rewrite deleteLocalTag_run; run_prog_cbn;
  destruct (if broken (TagDelete _) _ then None else _);
  [| earlier_leaf];
  run_prog_cbn;
  destruct (broken (TagCreate _ _) _);
  [earlier_leaf |];
  rewrite lookup_delete_same, forcePushTag_run; run_prog_cbn;
  destruct (broken (PushForce _) _);
  [earlier_leaf |];
  rewrite lookup_recreate_same; earlier_leaf.

Section Earlier.

Variables (tag commitHash : string) (w : World).
Variables (starting failed : string) (done : string -> string).

Lemma retarget_tree_unresolved :
  broken (RevParse tag) w = true \/ resolve_ref tag w = None ->
  let rn := retarget_tree starting failed done tag commitHash w in
  outcome_of rn = Exit 1 /\
  git_calls (trace_of rn) = [(RevParse tag, false)] /\
  local_tags (world_of rn) = local_tags w /\
  remote_tags (world_of rn) = remote_tags w.
Proof.
  intros H. cbv zeta. unfold retarget_tree.
  destruct H as [-> | H]; [repeat split |].
  rewrite H. destruct (broken (RevParse tag) w); repeat split.
Qed.

End Earlier.

(** X12.  [updateTag] and [updateRootTag] of [src/index.js] are those of
    the earlier version with the resolution of the tag put in front and a
    record returned.  When the tag resolves, the run of the later version
    leaves the world in which the earlier version, started after the
    rev-parse, leaves it; it makes the same calls after the rev-parse; it
    returns exactly when the earlier version returns, and ends the process
    with status 1 exactly when the earlier version does.  When the tag does
    not resolve, the later version ends the process with status 1 after the
    rev-parse, with no tag changed. *)
Theorem retarget_extends_earlier_version :
  extends_earlier updateTag Part000.updateTag /\
  extends_earlier updateRootTag Part000.updateRootTag.
Proof.
  split; intros tag commitHash w; cbv zeta.
  - rewrite updateTag_run. split; [| apply retarget_tree_unresolved].
    intros c0 B R. unfold retarget_tree. rewrite B, R. cbv zeta.
    unfold Part000.updateTag. earlier_run.
  - rewrite updateRootTag_run. split; [| apply retarget_tree_unresolved].
    intros c0 B R. unfold retarget_tree. rewrite B, R. cbv zeta.
    unfold Part000.updateRootTag. earlier_run.
Qed.

Lemma retarget_extends_earlier_version_witness :
  world_of (updateTag "v1.2" "dddddddddddd" example_world)
  = world_of (Part000.updateTag "v1.2" "dddddddddddd" (tick example_world)).
Proof.
  apply (proj1 retarget_extends_earlier_version "v1.2" "dddddddddddd"
           example_world) with (c0 := "cccccccccccc"%string); reflexivity.
Defined.

(* ===================================================================== *)
(** * The workflows, step by step *)
(* ===================================================================== *)

Section VersionTags.

Lemma version_tag_shape v :
  test versionTagPattern v = true ->
  v <> EmptyString /\ String.eqb v "HEAD" = false.
Proof.
  intros H. apply versionTagPattern_rootTagPattern, test_rootTagPattern in H
    as (d & rest & -> & _).
  split; [discriminate | reflexivity].
Qed.

Lemma nth_error_filterVersionTags tags i v :
  nth_error (filterVersionTags tags) i = Some v ->
  test versionTagPattern v = true.
Proof.
  intros H. apply nth_error_In in H. apply filter_In in H as [_ H]. exact H.
Qed.

Lemma console_lines_app t1 t2 :
  console_lines (t1 ++ t2) = console_lines t1 ++ console_lines t2.
Proof.
  induction t1 as [| [] t1 IH]; simpl; try exact IH; [reflexivity |].
  rewrite IH. reflexivity.
Qed.

End VersionTags.

(** X13.  The bump workflow.  In a healthy world, when the user chooses to
    bump, picks the version tag [selectedTag] and confirms, the run
    completes: the only confirm prompt names the root tag, [selectedTag] and
    the short hash of the commit [D] of [selectedTag]; the gateway calls are
    the repository check, the fetch, the listing, the resolution of
    [selectedTag] and the retarget of the root tag to [D], all accepted; the
    root tag points at [D] locally and on the remote; a [selectedTag] other
    than the root tag is where it was; and the change list holds the one
    record of the root tag. *)
Theorem bump_retargets_root_tag
    (w : World) (i : nat) (srest : list (Reply nat)) (crest : list (Reply bool))
    (rootTag selectedTag Cr Cs : string) :
  healthy w ->
  selects w = Answered 1 :: Answered i :: srest ->
  confirms w = Answered true :: crest ->
  let refs := fetch_refs (local_tags w) (remote_tags w) in
  let tags := map fst refs in
  getRootTag tags = Some rootTag ->
  nth_error (filterVersionTags tags) i = Some selectedTag ->
  lookup_ref rootTag refs = Some Cr ->
  lookup_ref selectedTag refs = Some Cs ->
  let D := trim (Cs ++ LF) in
  let r := main w in
  outcome_of r = Ok tt /\
  confirm_prompts (trace_of r)
  = [("Do you want to bump root tag " ++ rootTag
        ++ " to point to the commit of tag " ++ selectedTag
        ++ " (" ++ shortenCommitHash D ++ ")?")%string] /\
  confirms (world_of r) = crest /\
  git_calls (trace_of r)
  = map (fun c => (c, true))
      ([Status; FetchTags; ListTags; RevParse selectedTag]
         ++ retarget_calls rootTag D) /\
  lookup_ref rootTag (local_tags (world_of r)) = Some D /\
  lookup_ref rootTag (remote_tags (world_of r)) = Some D /\
  (selectedTag <> rootTag ->
   lookup_ref selectedTag (local_tags (world_of r)) = Some Cs /\
   lookup_ref selectedTag (remote_tags (world_of r))
   = lookup_ref selectedTag (remote_tags w)) /\
  changes (world_of r) = [mkChange rootTag (trim (Cr ++ LF)) D].
Proof.
  intros Hh Hsel Hconf refs tags Hroot Hnth Hr Hs D r.
  destruct (version_tag_shape _ (nth_error_filterVersionTags _ _ _ Hnth))
    as [Hne HselH].
  pose proof (rootTag_not_HEAD _ _ Hroot) as HrootH.
  assert (Hr' : lookup_ref rootTag refs <> None) by congruence.
  subst r. pattern (main w). apply wp_start. unfold main.
  wp_ok ltac:(first [exact Hh | exact Hsel | discriminate]).
  change (map fst (fetch_refs _ _)) with tags.
  rewrite (nth_error_nonempty _ _ _ _ Hnth).
  wp_ok ltac:(first [exact Hh | reflexivity
                    | exact (tagChoices_nonempty _ _ _ Hnth)]).
  rewrite (nth_error_tagChoices _ _ _ Hnth), (truthy_nonempty _ Hne).
  wp_ok ltac:(fail).
  rewrite Hroot. cbn [truthy_opt]. rewrite (getRootTag_truthy _ _ Hroot).
  wp_ok ltac:(first
    [ exact Hh | exact Hconf
    | rewrite (resolve_ref_tag _ _ HselH); exact Hs
    | rewrite (resolve_ref_tag _ _ HrootH); exact Hr
    | exact Hr' ]).
  rewrite ?app_nil_r.
  cbn [app confirm_prompts git_calls tag oldCommitHash newCommitHash].
  rewrite !confirm_prompts_app, !git_calls_app.
  match goal with Hg : git_calls _ = _, Hc : confirm_prompts _ = _ |- _ =>
    rewrite Hg, Hc end.
  cbn [confirm_prompts git_calls app map retarget_calls].
  world_cbn. repeat split.
  - apply lookup_recreate_same.
  - apply lookup_set_same.
  - fold refs. rewrite lookup_recreate_other by assumption. exact Hs.
  - apply lookup_set_other. assumption.
Qed.

Lemma bump_retargets_root_tag_witness :
  changes (world_of (main (set_selects [Answered 1; Answered 0] example_world)))
  = [mkChange "v1" "cccccccccccc" "cccccccccccc"].
Proof.
  apply (bump_retargets_root_tag
           (set_selects [Answered 1; Answered 0] example_world) 0 []
           [Answered true] "v1" "v1.2" "cccccccccccc" "cccccccccccc").
  - split; [reflexivity | intros; reflexivity].
  - reflexivity.
  - reflexivity.
  - reflexivity.
  - reflexivity.
  - reflexivity.
  - reflexivity.
Defined.

(** X14.  The cascade declined.  In a healthy world, when the root tag
    resolves to the commit of [selectedTag], the user confirms the update
    and answers no to the cascade prompt, the run completes: [selectedTag]
    is retargeted to the commit [D] of HEAD locally and on the remote,
    "Root tag update skipped." is printed, no call retargets the root tag,
    which points where it did locally and on the remote, and the change
    list holds the one record of [selectedTag]. *)
Theorem declined_cascade_leaves_root_tag
    (w : World) (i : nat) (srest : list (Reply nat)) (crest : list (Reply bool))
    (rootTag selectedTag Cr Cs H : string) :
  healthy w ->
  selects w = Answered 0 :: Answered i :: srest ->
  confirms w = Answered true :: Answered false :: crest ->
  let refs := fetch_refs (local_tags w) (remote_tags w) in
  let tags := map fst refs in
  getRootTag tags = Some rootTag ->
  nth_error (filterNonRootTags tags) i = Some selectedTag ->
  selectedTag <> EmptyString -> selectedTag <> "HEAD" ->
  lookup_ref rootTag refs = Some Cr ->
  lookup_ref selectedTag refs = Some Cs ->
  trim (Cr ++ LF) = trim (Cs ++ LF) ->
  head_commit w = Some H ->
  let D := trim (H ++ LF) in
  let r := main w in
  outcome_of r = Ok tt /\
  confirm_prompts (trace_of r)
  = [("Do you want to update tag " ++ selectedTag
        ++ " to point to the latest commit (" ++ shortenCommitHash D ++ ")?")%string;
     ("Do you also want to update the root tag to point to the updated "
        ++ selectedTag ++ " (" ++ shortenCommitHash D ++ ")?")%string] /\
  confirms (world_of r) = crest /\
  git_calls (trace_of r)
  = map (fun c => (c, true))
      ([Status; FetchTags; ListTags; RevParse "HEAD";
        RevParse rootTag; RevParse selectedTag]
         ++ retarget_calls selectedTag D) /\
  In (StdOut, "Root tag update skipped.") (console_lines (trace_of r)) /\
  lookup_ref selectedTag (local_tags (world_of r)) = Some D /\
  lookup_ref selectedTag (remote_tags (world_of r)) = Some D /\
  lookup_ref rootTag (local_tags (world_of r)) = Some Cr /\
  lookup_ref rootTag (remote_tags (world_of r))
  = lookup_ref rootTag (remote_tags w) /\
  changes (world_of r) = [mkChange selectedTag (trim (Cs ++ LF)) D].
Proof.
  intros Hh Hsel Hconf refs tags Hroot Hnth Hne Hhead Hr Hs Hsame HH D r.
  assert (Hsr : selectedTag <> rootTag).
  { apply (selected_not_root tags); [exact Hroot |].
    rewrite map_snd_tagChoices. eapply nth_error_In. exact Hnth. }
  assert (Hrs : rootTag <> selectedTag) by congruence.
  assert (HselH : String.eqb selectedTag "HEAD" = false)
    by (apply String.eqb_neq; exact Hhead).
  pose proof (rootTag_not_HEAD _ _ Hroot) as HrootH.
  assert (Hs' : lookup_ref selectedTag refs <> None) by congruence.
  subst r. pattern (main w). apply wp_start. unfold main.
  wp_ok ltac:(first [exact Hh | exact Hsel | discriminate]).
  change (map fst (fetch_refs _ _)) with tags.
  rewrite (nth_error_nonempty _ _ _ _ Hnth).
  wp_ok ltac:(first [exact Hh | reflexivity
                    | exact (tagChoices_nonempty _ _ _ Hnth)]).
  rewrite (nth_error_tagChoices _ _ _ Hnth), (truthy_nonempty _ Hne).
  wp_ok ltac:(first [exact Hh | exact HH | exact Hconf]).
  rewrite Hroot. cbv beta iota. rewrite (getRootTag_truthy _ _ Hroot).
  wp_ok ltac:(first
    [ exact Hh
    | rewrite (resolve_ref_tag _ _ HrootH); exact Hr
    | rewrite (resolve_ref_tag _ _ HselH); exact Hs ]).
  rewrite Hsame, String.eqb_refl.
  wp_ok ltac:(first
    [ exact Hh | reflexivity
    | rewrite (resolve_ref_tag _ _ HselH); exact Hs
    | exact Hs' ]).
  rewrite ?app_nil_r.
  cbn [app confirm_prompts git_calls console_lines trace_of snd
       tag oldCommitHash newCommitHash].
  rewrite !confirm_prompts_app, !git_calls_app, !console_lines_app.
  match goal with Hg : git_calls _ = _, Hc : confirm_prompts _ = _ |- _ =>
    rewrite Hg, Hc end.
  cbn [confirm_prompts git_calls console_lines app map retarget_calls].
  world_cbn. repeat split.
  - rewrite ?in_app_iff. cbn [In]. tauto.
  - apply lookup_recreate_same.
  - apply lookup_set_same.
  - fold refs. rewrite (lookup_recreate_other _ _ _ _ Hrs). exact Hr.
  - apply lookup_set_other. exact Hrs.
Qed.

Lemma declined_cascade_leaves_root_tag_witness :
  lookup_ref "v1"
    (local_tags (world_of (main (set_confirms [Answered true; Answered false]
                                   example_world))))
  = Some "cccccccccccc" /\
  changes (world_of (main (set_confirms [Answered true; Answered false]
                             example_world)))
  = [mkChange "v1.2" "cccccccccccc" "dddddddddddd"].
Proof.
  pose proof (declined_cascade_leaves_root_tag
                (set_confirms [Answered true; Answered false] example_world)
                0 [] [] "v1" "v1.2" "cccccccccccc" "cccccccccccc"
                "dddddddddddd") as P.
  cbv zeta in P.
  destruct P as (_ & _ & _ & _ & _ & _ & _ & Hl & _ & Hc).
  - split; [reflexivity | intros; reflexivity].
  - reflexivity.
  - reflexivity.
  - reflexivity.
  - reflexivity.
  - discriminate.
  - discriminate.
  - reflexivity.
  - reflexivity.
  - reflexivity.
  - reflexivity.
  - split; [exact Hl | exact Hc].
Defined.

(** X15.  The update workflow in a repository without a root tag.  Every
    tag is offered; in a healthy world, when the user picks [selectedTag]
    and confirms, the run completes with one confirm prompt, resolves no tag
    but the selected one, retargets [selectedTag] to the commit [D] of HEAD
    locally and on the remote, and the change list holds the one record of
    [selectedTag]. *)
Theorem update_without_root_tag
    (w : World) (i : nat) (srest : list (Reply nat)) (crest : list (Reply bool))
    (selectedTag Cs H : string) :
  healthy w ->
  selects w = Answered 0 :: Answered i :: srest ->
  confirms w = Answered true :: crest ->
  let refs := fetch_refs (local_tags w) (remote_tags w) in
  let tags := map fst refs in
  getRootTag tags = None ->
  nth_error tags i = Some selectedTag ->
  selectedTag <> EmptyString -> selectedTag <> "HEAD" ->
  lookup_ref selectedTag refs = Some Cs ->
  head_commit w = Some H ->
  let D := trim (H ++ LF) in
  let r := main w in
  outcome_of r = Ok tt /\
  confirm_prompts (trace_of r)
  = [("Do you want to update tag " ++ selectedTag
        ++ " to point to the latest commit (" ++ shortenCommitHash D ++ ")?")%string] /\
  confirms (world_of r) = crest /\
  git_calls (trace_of r)
  = map (fun c => (c, true))
      ([Status; FetchTags; ListTags; RevParse "HEAD"]
         ++ retarget_calls selectedTag D) /\
  lookup_ref selectedTag (local_tags (world_of r)) = Some D /\
  lookup_ref selectedTag (remote_tags (world_of r)) = Some D /\
  changes (world_of r) = [mkChange selectedTag (trim (Cs ++ LF)) D].
Proof.
  intros Hh Hsel Hconf refs tags Hroot Hnth Hne Hhead Hs HH D r.
  assert (HselH : String.eqb selectedTag "HEAD" = false)
    by (apply String.eqb_neq; exact Hhead).
  assert (Hs' : lookup_ref selectedTag refs <> None) by congruence.
  assert (Hall : filterNonRootTags tags = tags)
    by (unfold filterNonRootTags; rewrite Hroot; reflexivity).
  subst r. pattern (main w). apply wp_start. unfold main.
  wp_ok ltac:(first [exact Hh | exact Hsel | discriminate]).
  change (map fst (fetch_refs _ _)) with tags.
  rewrite Hall, (nth_error_nonempty _ _ _ _ Hnth).
  wp_ok ltac:(first [exact Hh | reflexivity
                    | exact (tagChoices_nonempty _ _ _ Hnth)]).
  rewrite (nth_error_tagChoices _ _ _ Hnth), (truthy_nonempty _ Hne).
  wp_ok ltac:(first [exact Hh | exact HH | exact Hconf]).
  rewrite Hroot. cbv beta iota.
  wp_ok ltac:(first
    [ exact Hh | reflexivity
    | rewrite (resolve_ref_tag _ _ HselH); exact Hs
    | exact Hs' ]).
  rewrite ?app_nil_r.
  cbn [app confirm_prompts git_calls tag oldCommitHash newCommitHash].
  rewrite !confirm_prompts_app, !git_calls_app.
  match goal with Hg : git_calls _ = _, Hc : confirm_prompts _ = _ |- _ =>
    rewrite Hg, Hc end.
  cbn [confirm_prompts git_calls app map retarget_calls].
  world_cbn. repeat split.
  - apply lookup_recreate_same.
  - apply lookup_set_same.
Qed.

Lemma update_without_root_tag_witness :
  changes (world_of (main (set_local [("latest", "cccccccccccc")]
                             (set_remote [] example_world))))
  = [mkChange "latest" "cccccccccccc" "dddddddddddd"].
Proof.
  apply (update_without_root_tag
           (set_local [("latest", "cccccccccccc")] (set_remote [] example_world))
           0 [] [Answered true] "latest" "cccccccccccc" "dddddddddddd").
  - split; [reflexivity | intros; reflexivity].
  - reflexivity.
  - reflexivity.
  - reflexivity.
  - reflexivity.
  - discriminate.
  - discriminate.
  - reflexivity.
  - reflexivity.
Defined.
Section Candidates.

Lemma map_fst_tagChoices tags : map fst (tagChoices tags) = tags.
Proof. unfold tagChoices. rewrite map_map. simpl. apply map_id. Qed.

Lemma filterNonRootTags_nil tags :
  filterNonRootTags tags = [] <->
  forall t, In t tags -> getRootTag tags = Some t.
Proof.
  destruct (getRootTag tags) as [r |] eqn:R.
  - rewrite (filterNonRootTags_Some _ _ R), filter_nil_iff. split.
    + intros H t Ht. apply H in Ht. apply negb_false_iff, String.eqb_eq in Ht.
      congruence.
    + intros H t Ht. apply H in Ht. injection Ht as <-.
      rewrite String.eqb_refl. reflexivity.
  - unfold filterNonRootTags. rewrite R. split.
    + intros -> t [].
    + destruct tags as [| t tags]; [reflexivity |].
      intros H. discriminate (H t). left. reflexivity.
Qed.

End Candidates.

(** X16.  The update workflow needs a tag besides the root tag.
    [filterNonRootTags] gives the empty list exactly when every tag of the
    list is the root tag (so also on the empty list); then, in a healthy
    world, a run in which the user chooses to update prints
    "No tags available for update." after the listing and ends the process
    with status 1: no further prompt, no further gateway call, no tag
    changed but by the fetch, no record. *)
Theorem update_needs_a_tag_besides_the_root
    (w : World) (srest : list (Reply nat)) :
  let refs := fetch_refs (local_tags w) (remote_tags w) in
  let tags := map fst refs in
  let r := main w in
  (filterNonRootTags tags = [] <->
   forall t, In t tags -> getRootTag tags = Some t) /\
  (healthy w ->
   selects w = Answered 0 :: srest ->
   filterNonRootTags tags = [] ->
   outcome_of r = Exit 1 /\
   trace_of r
   = [EvGit Status true;
      EvSelect "What would you like to do?"
        ["Update a Tag"; "Bump a Root Tag"] (Answered "update");
      EvGit FetchTags true; EvGit ListTags true;
      EvLog StdOut Yellow "No tags available for update."] /\
   selects (world_of r) = srest /\
   confirms (world_of r) = confirms w /\
   local_tags (world_of r) = refs /\
   remote_tags (world_of r) = remote_tags w /\
   changes (world_of r) = []).
Proof.
  intros refs tags r. split; [apply filterNonRootTags_nil |].
  intros Hh Hsel Hnil.
  subst r. pattern (main w). apply wp_start. unfold main.
  wp_ok ltac:(first [exact Hh | exact Hsel | discriminate]).
  change (map fst (fetch_refs _ _)) with tags.
  rewrite Hnil.
  wp_ok ltac:(fail).
  cbn [app]. world_cbn. repeat split.
Qed.

Lemma update_needs_a_tag_besides_the_root_witness :
  outcome_of (main (set_local [("v1", "cccccccccccc")] example_world)) = Exit 1.
Proof.
  apply (update_needs_a_tag_besides_the_root
           (set_local [("v1", "cccccccccccc")] example_world) [Answered 0]).
  - split; [reflexivity | intros; reflexivity].
  - reflexivity.
  - reflexivity.
Defined.

(** X17.  The bump workflow needs a version tag.  In a healthy world in
    which no tag matches [/^v\d+\.\d+/], a run in which the user chooses
    to bump prints "No version tags found." after the listing and ends the
    process with status 1: no further prompt, no further gateway call, no
    tag changed but by the fetch, no record. *)
Theorem bump_needs_a_version_tag (w : World) (srest : list (Reply nat)) :
  let refs := fetch_refs (local_tags w) (remote_tags w) in
  let tags := map fst refs in
  let r := main w in
  healthy w ->
  selects w = Answered 1 :: srest ->
  (forall t, In t tags -> test versionTagPattern t = false) ->
  outcome_of r = Exit 1 /\
  trace_of r
  = [EvGit Status true;
     EvSelect "What would you like to do?"
       ["Update a Tag"; "Bump a Root Tag"] (Answered "bump");
     EvGit FetchTags true; EvGit ListTags true;
     EvLog StdOut Yellow "No version tags found."] /\
  selects (world_of r) = srest /\
  confirms (world_of r) = confirms w /\
  local_tags (world_of r) = refs /\
  remote_tags (world_of r) = remote_tags w /\
  changes (world_of r) = [].
Proof.
  intros refs tags r Hh Hsel Hnone.
  assert (Hnil : filterVersionTags tags = [])
    by (apply filter_nil_iff; exact Hnone).
  subst r. pattern (main w). apply wp_start. unfold main.
  wp_ok ltac:(first [exact Hh | exact Hsel | discriminate]).
  change (map fst (fetch_refs _ _)) with tags.
  rewrite Hnil.
  wp_ok ltac:(fail).
  cbn [app]. world_cbn. repeat split.
Qed.

Lemma bump_needs_a_version_tag_witness :
  outcome_of (main (set_selects [Answered 1]
                      (set_local [("v1", "cccccccccccc")] example_world)))
  = Exit 1.
Proof.
  apply (bump_needs_a_version_tag
           (set_selects [Answered 1]
              (set_local [("v1", "cccccccccccc")] example_world)) []).
  - split; [reflexivity | intros; reflexivity].
  - reflexivity.
  - intros t [<- | []]. reflexivity.
Defined.

(** X18.  The update declined.  In a healthy world, when the user chooses
    to update, picks [selectedTag] and answers no to the confirm prompt, the
    run returns (status 0) after "Tag update canceled.": the whole trace is
    the repository check, the two selections, the fetch and the listing, the
    resolution of HEAD, the prompt and that line; no tag is changed but by
    the fetch, the remote is as it was, and the change list is empty, so no
    summary is printed. *)
Theorem declined_update_changes_nothing
    (w : World) (i : nat) (srest : list (Reply nat)) (crest : list (Reply bool))
    (selectedTag H : string) :
  healthy w ->
  selects w = Answered 0 :: Answered i :: srest ->
  confirms w = Answered false :: crest ->
  let refs := fetch_refs (local_tags w) (remote_tags w) in
  let tags := map fst refs in
  nth_error (filterNonRootTags tags) i = Some selectedTag ->
  selectedTag <> EmptyString ->
  head_commit w = Some H ->
  let D := trim (H ++ LF) in
  let r := main w in
  outcome_of r = Ok tt /\
  trace_of r
  = [EvGit Status true;
     EvSelect "What would you like to do?"
       ["Update a Tag"; "Bump a Root Tag"] (Answered "update");
     EvGit FetchTags true; EvGit ListTags true;
     EvSelect "Select a tag to update:" (filterNonRootTags tags)
       (Answered selectedTag);
     EvGit (RevParse "HEAD") true;
     EvConfirm
       ("Do you want to update tag " ++ selectedTag
          ++ " to point to the latest commit (" ++ shortenCommitHash D ++ ")?")%string
       (Answered false);
     EvLog StdOut Yellow "Tag update canceled."] /\
  confirms (world_of r) = crest /\
  local_tags (world_of r) = refs /\
  remote_tags (world_of r) = remote_tags w /\
  changes (world_of r) = [].
Proof.
  intros Hh Hsel Hconf refs tags Hnth Hne HH D r.
  subst r. pattern (main w). apply wp_start. unfold main.
  wp_ok ltac:(first [exact Hh | exact Hsel | discriminate]).
  change (map fst (fetch_refs _ _)) with tags.
  rewrite (nth_error_nonempty _ _ _ _ Hnth).
  wp_ok ltac:(first [exact Hh | reflexivity
                    | exact (tagChoices_nonempty _ _ _ Hnth)]).
  rewrite (nth_error_tagChoices _ _ _ Hnth), (truthy_nonempty _ Hne).
  wp_ok ltac:(first [exact Hh | exact HH | exact Hconf]).
  rewrite map_fst_tagChoices.
  cbn [app]. world_cbn. repeat split.
Qed.

Lemma declined_update_changes_nothing_witness :
  outcome_of (main example_world_declined) = Ok tt /\
  local_tags (world_of (main example_world_declined))
  = local_tags example_world_declined.
Proof.
  pose proof (declined_update_changes_nothing example_world_declined 0 [] []
                "v1.2" "dddddddddddd") as P.
  cbv zeta in P.
  destruct P as (Ho & _ & _ & Hl & _).
  - split; [reflexivity | intros; reflexivity].
  - reflexivity.
  - reflexivity.
  - reflexivity.
  - discriminate.
  - reflexivity.
  - split; [exact Ho | exact Hl].
Defined.

(** X19.  The bump declined.  In a healthy world, when the user chooses to
    bump, picks the version tag [selectedTag] and answers no to the confirm
    prompt, the run returns (status 0) after "Root tag update canceled.":
    the whole trace is the repository check, the two selections, the fetch
    and the listing, the resolution of [selectedTag], the prompt and that
    line; no tag is changed but by the fetch, the remote is as it was, and
    the change list is empty. *)
Theorem declined_bump_changes_nothing
    (w : World) (i : nat) (srest : list (Reply nat)) (crest : list (Reply bool))
    (rootTag selectedTag Cs : string) :
  healthy w ->
  selects w = Answered 1 :: Answered i :: srest ->
  confirms w = Answered false :: crest ->
  let refs := fetch_refs (local_tags w) (remote_tags w) in
  let tags := map fst refs in
  getRootTag tags = Some rootTag ->
  nth_error (filterVersionTags tags) i = Some selectedTag ->
  lookup_ref selectedTag refs = Some Cs ->
  let D := trim (Cs ++ LF) in
  let r := main w in
  outcome_of r = Ok tt /\
  trace_of r
  = [EvGit Status true;
     EvSelect "What would you like to do?"
       ["Update a Tag"; "Bump a Root Tag"] (Answered "bump");
     EvGit FetchTags true; EvGit ListTags true;
     EvSelect "Select a version tag to bump the root tag to:"
       (filterVersionTags tags) (Answered selectedTag);
     EvGit (RevParse selectedTag) true;
     EvConfirm
       ("Do you want to bump root tag " ++ rootTag
          ++ " to point to the commit of tag " ++ selectedTag
          ++ " (" ++ shortenCommitHash D ++ ")?")%string
       (Answered false);
     EvLog StdOut Yellow "Root tag update canceled."] /\
  confirms (world_of r) = crest /\
  local_tags (world_of r) = refs /\
  remote_tags (world_of r) = remote_tags w /\
  changes (world_of r) = [].
Proof.
  intros Hh Hsel Hconf refs tags Hroot Hnth Hs D r.
  destruct (version_tag_shape _ (nth_error_filterVersionTags _ _ _ Hnth))
    as [Hne HselH].
  subst r. pattern (main w). apply wp_start. unfold main.
  wp_ok ltac:(first [exact Hh | exact Hsel | discriminate]).
  change (map fst (fetch_refs _ _)) with tags.
  rewrite (nth_error_nonempty _ _ _ _ Hnth).
  wp_ok ltac:(first [exact Hh | reflexivity
                    | exact (tagChoices_nonempty _ _ _ Hnth)]).
  rewrite (nth_error_tagChoices _ _ _ Hnth), (truthy_nonempty _ Hne).
  wp_ok ltac:(fail).
  rewrite Hroot. cbn [truthy_opt]. rewrite (getRootTag_truthy _ _ Hroot).
  wp_ok ltac:(first
    [ exact Hh | exact Hconf
    | rewrite (resolve_ref_tag _ _ HselH); exact Hs ]).
  rewrite map_fst_tagChoices.
  cbn [app]. world_cbn. repeat split.
Qed.

Lemma declined_bump_changes_nothing_witness :
  outcome_of (main (set_selects [Answered 1; Answered 0] example_world_declined))
  = Ok tt.
Proof.
  apply (declined_bump_changes_nothing
           (set_selects [Answered 1; Answered 0] example_world_declined)
           0 [] [] "v1" "v1.2" "cccccccccccc").
  - split; [reflexivity | intros; reflexivity].
  - reflexivity.
  - reflexivity.
  - reflexivity.
  - reflexivity.
  - reflexivity.
Defined.

(* ===================================================================== *)
(** * Every run of [main]: what is never done *)
(* ===================================================================== *)

Section Authorised.

Lemma authorised_without_yes t :
  authorised 0 None t = true ->
  existsb confirmed_yes t = false ->
  forall c ok, In (EvGit c ok) t -> mutating c = false.
Proof.
  induction t as [| e t IH]; intros A Y c ok H; [contradiction |].
  destruct e as [c' ok' | s col msg | e | message choices r | message r].
  - destruct H as [[= -> ->] | H].
    + destruct c; try reflexivity; discriminate A.
    + destruct c'; try (apply (IH A Y c ok H)); discriminate A.
  - destruct H as [H | H]; [discriminate H | exact (IH A Y c ok H)].
  - destruct H as [H | H]; [discriminate H | exact (IH A Y c ok H)].
  - destruct H as [H | H]; [discriminate H | exact (IH A Y c ok H)].
  - destruct H as [H | H]; [discriminate H |].
    destruct r as [[|] | | name]; try exact (IH A Y c ok H). discriminate Y.
Qed.

End Authorised.

(** The summary loop runs over the change list of the world at hand. *)
Ltac wp_summary :=
  try (cbn [changes tick set_local set_remote set_selects set_confirms
            set_changes app forEach];
       repeat wp_step fail).

Ltac wp_run_all prune := wp_run prune; wp_summary.

(** X20.  [main] changes a tag only after the user said yes.  In every run,
    each attempt to delete a tag uses up a confirm prompt answered yes that
    came before it, and a tag is created or pushed only under the name of
    the delete before it.  So in a run without a confirm prompt answered
    yes no gateway call deletes, creates or pushes a tag, the change list is
    empty and the remote is as it was. *)
Theorem main_mutates_only_after_yes (w : World) :
  authorised 0 None (trace_of (main w)) = true /\
  (existsb confirmed_yes (trace_of (main w)) = false ->
   (forall c ok, In (EvGit c ok) (trace_of (main w)) -> mutating c = false) /\
   changes (world_of (main w)) = [] /\
   remote_tags (world_of (main w)) = remote_tags w).
Proof.
  assert (A : authorised 0 None (trace_of (main w)) = true).
  { pattern (main w). unfold main. wp_run_all fail.
    all: cbv beta; cbn [trace_of snd app authorised].
    all: rewrite ?String.eqb_refl; reflexivity. }
  split; [exact A |]. intros Y.
  split; [exact (authorised_without_yes _ A Y) |].
  revert Y. clear A. pattern (main w). unfold main. wp_run_all fail.
  all: cbv beta;
    cbn [world_of trace_of fst snd app existsb confirmed_yes orb changes
         remote_tags tick set_local set_remote set_selects set_confirms
         set_changes].
  all: intros Y; try discriminate Y; split; reflexivity.
Qed.

(** The lines before the summary, found by their number. *)
Ltac lines_before :=
  first
    [ exists []; split; [reflexivity |]
    | eexists [_]; split; [reflexivity |]
    | eexists [_; _]; split; [reflexivity |]
    | eexists [_; _; _]; split; [reflexivity |]
    | eexists [_; _; _; _]; split; [reflexivity |]
    | eexists [_; _; _; _; _]; split; [reflexivity |]
    | eexists [_; _; _; _; _; _]; split; [reflexivity |]
    | eexists [_; _; _; _; _; _; _]; split; [reflexivity |]
    | eexists [_; _; _; _; _; _; _; _]; split; [reflexivity |]
    | eexists [_; _; _; _; _; _; _; _; _]; split; [reflexivity |]
    | eexists [_; _; _; _; _; _; _; _; _; _]; split; [reflexivity |] ].

(** X21.  The summary.  A run of [main] accumulates at most two Change
    Records.  When the run returns with a change list that is not empty,
    the last lines on the console are "Summary of changes:" and then one
    line per record, in order, with the tag, the short old hash and the
    short new hash; the heading is printed once.  A run that ends the
    process, or returns with an empty change list, prints no summary. *)
Theorem summary_lists_the_changes (w : World) :
  let r := main w in
  length (changes (world_of r)) <= 2 /\
  (outcome_of r = Ok tt -> changes (world_of r) <> [] ->
     exists before,
       console_lines (trace_of r)
       = before ++ (StdOut, "Summary of changes:")
                     :: map summary_line (changes (world_of r)) /\
       ~ In (StdOut, "Summary of changes:") before) /\
  (outcome_of r <> Ok tt \/ changes (world_of r) = [] ->
     ~ In (StdOut, "Summary of changes:") (console_lines (trace_of r))).
Proof.
  cbv zeta. pattern (main w). unfold main. wp_run_all fail.
  all: cbv beta;
    cbn [outcome_of world_of trace_of fst snd app console_lines changes tick
         set_local set_remote set_selects set_confirms set_changes length
         map summary_line tag oldCommitHash newCommitHash].
  all: split; [repeat constructor |].
  all: split;
    [ intros HO HC; try discriminate HO; try (contradiction HC; reflexivity);
      lines_before; not_in_lines
    | intros [HO | HC]; try discriminate HC;
      try (contradiction HO; reflexivity); not_in_lines ].
Qed.

(** The action prompt returns one of its two values. *)
Ltac prune_action :=
  idtac;
  match goal with
  | Hin : In ?v (map snd [("Update a Tag", "update"); ("Bump a Root Tag", "bump")]),
    H1 : String.eqb ?v "update" = false,
    H2 : String.eqb ?v "bump" = false |- _ =>
      cbn in Hin; destruct Hin as [<- | [<- | []]]; discriminate
  end.

(** A version tag is not the empty string. *)
Ltac prune_version_tag :=
  idtac;
  match goal with
  | Hin : In ?v (map snd (tagChoices (filterVersionTags _))),
    H : negb (truthy ?v) = true |- _ =>
      rewrite map_snd_tagChoices in Hin; apply filter_In in Hin as [_ Hin];
      apply versionTagPattern_rootTagPattern, rootTagPattern_truthy in Hin;
      rewrite Hin in H; discriminate H
  end.

(** X22.  Two exits that no run takes.  [main] never prints
    "Invalid action selected.": the action prompt returns one of its two
    values.  The bump workflow never prints
    "Selected tag is undefined or null.": a name that matches
    [/^v\d+\.\d+/] is not the empty string. *)
Theorem unreachable_exits :
  (forall w, ~ In (StdOut, "Invalid action selected.")
                  (console_lines (trace_of (main w)))) /\
  (forall w, ~ In (StdOut, "Selected tag is undefined or null.")
                  (console_lines (trace_of (main_bump w)))).
Proof.
  split; intros w.
  - pattern (main w). unfold main. wp_run_all prune_action.
    all: cbv beta; cbn [trace_of snd app console_lines].
    all: not_in_lines.
  - pattern (main_bump w). unfold main_bump. wp_run_all prune_version_tag.
    all: cbv beta; cbn [trace_of snd app console_lines].
    all: not_in_lines.
Qed.

(** The tags of a run move only by the calls of the run. *)
Ltac other_tag Hn :=
  repeat match goal with
         | |- context [lookup_ref ?name (delete_ref ?v ?refs ++ [(?v, ?c)])] =>
             rewrite (lookup_recreate_other v name c refs)
               by (intros ->; apply Hn; cbn; tauto)
         | |- context [lookup_ref ?name (delete_ref ?v ?refs)] =>
             rewrite (lookup_delete_other v name refs)
               by (intros ->; apply Hn; cbn; tauto)
         | |- context [lookup_ref ?name (set_ref ?v ?c ?refs)] =>
             rewrite (lookup_set_other v name c refs)
               by (intros ->; apply Hn; cbn; tauto)
         end.

(** X23.  What a run of [main] leaves alone.  In every run, a tag of which
    the run has no accepted force-push points on the remote where it did,
    and a tag that existed locally and of which the run has no accepted
    delete points locally where it did; HEAD is never moved. *)
Theorem main_moves_only_the_tags_it_retargets (w : World) (name : string) :
  let r := main w in
  (~ In (PushForce name, true) (git_calls (trace_of r)) ->
   lookup_ref name (remote_tags (world_of r))
   = lookup_ref name (remote_tags w)) /\
  (~ In (TagDelete name, true) (git_calls (trace_of r)) ->
   forall c, lookup_ref name (local_tags w) = Some c ->
             lookup_ref name (local_tags (world_of r)) = Some c) /\
  head_commit (world_of r) = head_commit w.
Proof.
  cbv zeta. pattern (main w). unfold main. wp_run_all fail.
  all: cbv beta;
    cbn [world_of trace_of fst snd app git_calls local_tags remote_tags
         head_commit tick set_local set_remote set_selects set_confirms
         set_changes].
  all: split; [intros Hn | split; [intros Hn c Hc | reflexivity]].
  all: other_tag Hn; rewrite ?lookup_fetch, ?Hc; reflexivity.
Qed.

Lemma main_mutates_only_after_yes_witness :
  remote_tags (world_of (main example_world_declined))
  = remote_tags example_world_declined.
Proof.
  apply (proj2 (main_mutates_only_after_yes example_world_declined)).
  reflexivity.
Defined.

Lemma summary_lists_the_changes_witness :
  exists before,
    console_lines (trace_of (main example_world))
    = before ++ (StdOut, "Summary of changes:")
                  :: map summary_line (changes (world_of (main example_world))) /\
    ~ In (StdOut, "Summary of changes:") before.
Proof.
  apply (proj1 (proj2 (summary_lists_the_changes example_world)));
    [reflexivity | discriminate].
Defined.

Lemma unreachable_exits_witness :
  ~ In (StdOut, "Invalid action selected.")
       (console_lines (trace_of (main example_world))).
Proof. apply (proj1 unreachable_exits example_world). Defined.

Lemma main_moves_only_the_tags_it_retargets_witness :
  lookup_ref "v1.1" (local_tags (world_of (main example_world)))
  = Some "bbbbbbbbbbbb".
Proof.
  apply (proj1 (proj2 (main_moves_only_the_tags_it_retargets example_world "v1.1"))).
  - vm_compute. intuition discriminate.
  - reflexivity.
Defined.

(** A line is among the lines of a trace only when the flag of the trace
    says so. *)
Ltac line_needs_flag :=
  let Hin := fresh "Hin" in
  intros Hin; first [reflexivity | exfalso; revert Hin; not_in_lines].

(** The rejected call of a run and what the run does after it. *)
Ltac rejected_call :=
  let c := fresh "c" in
  let Hc := fresh "Hc" in
  let Hin := fresh "Hin" in
  intros c Hc Hin; cbn [In] in Hin;
  repeat (destruct Hin as [Hin | Hin];
          [ first
              [ discriminate Hin
              | exfalso; injection Hin as Hin; subst c; apply Hc; reflexivity
              | clear Hin;
                split; [reflexivity |];
                split; [not_in_lines |];
                split; [not_in_lines |];
                eexists; reflexivity ] |]);
  contradiction.

(** X24.  The handler of [main] sees the errors of the prompts only.  In
    every run, "Canceled by User" is printed only when the user left a
    prompt, and "An unexpected error occurred." only when a prompt failed
    otherwise.  A rejected gateway call other than the repository check
    ends the process with status 1 in the helper that made it: the handler
    prints neither of its lines, and the last line on the console is the
    line of that helper on the standard error. *)
Theorem git_failures_do_not_reach_the_handler (w : World) :
  let r := main w in
  (In (StdOut, "Canceled by User") (console_lines (trace_of r)) ->
   existsb prompt_aborted (trace_of r) = true) /\
  (In (StdErr, "An unexpected error occurred.") (console_lines (trace_of r)) ->
   existsb prompt_crashed (trace_of r) = true) /\
  (forall c, c <> Status -> In (c, false) (git_calls (trace_of r)) ->
     outcome_of r = Exit 1 /\
     ~ In (StdOut, "Canceled by User") (console_lines (trace_of r)) /\
     ~ In (StdErr, "An unexpected error occurred.")
          (console_lines (trace_of r)) /\
     exists msg, last (console_lines (trace_of r)) (StdOut, EmptyString)
                 = (StdErr, msg)).
Proof.
  cbv zeta. pattern (main w). unfold main. wp_run_all fail.
  all: cbv beta;
    cbn [outcome_of trace_of fst snd app git_calls console_lines existsb
         prompt_aborted prompt_crashed orb last].
  all: split; [line_needs_flag | split; [line_needs_flag | rejected_call]].
Qed.

Lemma git_failures_do_not_reach_the_handler_witness :
  outcome_of (main example_world_push_rejected) = Exit 1.
Proof.
  apply (proj2 (proj2 (git_failures_do_not_reach_the_handler
                         example_world_push_rejected)) (PushForce "v1.2")).
  - discriminate.
  - vm_compute. tauto.
Defined.
